(** * Session and credential state of the auth demo (src/app.tsx)

    A shallow embedding of [AuthProvider] and of the two forms that call
    it.  The browser is explicit state: two Web Storage areas, the
    console, and the source of [Math.random].  Handlers are computations
    that may return or throw, so that the [try]/[catch] blocks of the
    source (and their absence) are visible in the model. *)

From stdpp Require Import gmap strings list.

Local Open Scope string_scope.

(** ** JavaScript values

    Strings are sequences of code units below 256.  Objects keep their
    properties in insertion order, as [JSON.stringify] observes it.
    Numbers are kept as their decimal text: nothing here computes with
    them. *)

#[local] Set Warnings "-register-all".

Inductive jsval : Type :=
  | JNull
  | JBool (b : bool)
  | JNum (lexeme : string)
  | JStr (s : string)
  | JArr (elems : list jsval)
  | JObj (props : list (string * jsval)).

(** [own_keys v] is [Object.keys(v)] for an object. *)
Definition own_keys (v : jsval) : list string :=
  match v with
  | JObj props => fst <$> props
  | _ => []
  end.

(** [get_prop v k] is [v.k] for an object [v]; [None] stands for
    [undefined]. *)
Definition get_prop (v : jsval) (k : string) : option jsval :=
  match v with
  | JObj props => snd <$> List.find (fun kv => String.eqb (fst kv) k) props
  | _ => None
  end.

(** [falsy s] is [!s] for a string. *)
Definition falsy (s : string) : bool := String.eqb s "".

(** [truthy r] is the truth value of what [getItem] returned: [null] and
    the empty string are false. *)
Definition truthy (r : option string) : bool :=
  match r with
  | Some s => negb (falsy s)
  | None => false
  end.

(** ** [String.prototype.trim] *)

(** White space and line terminators among the code units below 256:
    TAB, LF, VT, FF, CR, SP and NBSP. *)
Definition is_space (c : Ascii.ascii) : bool :=
  let n := Ascii.nat_of_ascii c in
  (Nat.leb 9 n && Nat.leb n 13) || Nat.eqb n 32 || Nat.eqb n 160.

Fixpoint trimStart (s : string) : string :=
  match s with
  | String c s' => if is_space c then trimStart s' else s
  | EmptyString => EmptyString
  end.

Fixpoint trimEnd (s : string) : string :=
  match s with
  | String c s' =>
      match trimEnd s' with
      | EmptyString => if is_space c then EmptyString else String c EmptyString
      | t => String c t
      end
  | EmptyString => EmptyString
  end.

Definition trim (s : string) : string := trimEnd (trimStart s).

(** ** Web Storage *)

Inductive Backend : Type := LocalStorage | SessionStorage.

#[global] Instance Backend_eq_dec : EqDecision Backend.
Proof. solve_decision. Defined.

Inductive Call : Type :=
  | GetItem (k : string)
  | SetItem (k v : string)
  | RemoveItem (k : string).

(** A storage area: its entries, and the condition under which a call
    on it throws, as a function of the call and of the entries at that
    moment (access denied: every call; quota exceeded: [SetItem] calls
    that would grow the area too much). *)
Record Storage : Type := {
  items : gmap string string;
  throws : Call -> gmap string string -> bool
}.

Inductive Error : Type :=
  | DOMException (b : Backend) (c : Call)
  | SyntaxError (text : string).

(** The browser as the component sees it.  [journal] records every
    storage call in the order it was made; [console] every
    [console.error]; [rng n] is the text of
    [Math.random().toString(36).slice(2)] at the [n]-th draw. *)
Record World : Type := {
  localStorage : Storage;
  sessionStorage : Storage;
  console : list (string * Error);
  journal : list (Backend * Call);
  rng : nat -> string;
  draws : nat
}.

Definition area (b : Backend) (w : World) : Storage :=
  match b with
  | LocalStorage => localStorage w
  | SessionStorage => sessionStorage w
  end.

Definition with_items (b : Backend) (m : gmap string string) (w : World) : World :=
  match b with
  | LocalStorage =>
      {| localStorage := {| items := m; throws := throws (localStorage w) |};
         sessionStorage := sessionStorage w;
         console := console w; journal := journal w; rng := rng w; draws := draws w |}
  | SessionStorage =>
      {| localStorage := localStorage w;
         sessionStorage := {| items := m; throws := throws (sessionStorage w) |};
         console := console w; journal := journal w; rng := rng w; draws := draws w |}
  end.

Definition record_call (b : Backend) (c : Call) (w : World) : World :=
  {| localStorage := localStorage w; sessionStorage := sessionStorage w;
     console := console w; journal := journal w ++ [(b, c)];
     rng := rng w; draws := draws w |}.

(** [stored b k w] is what [b.getItem(k)] would read. *)
Definition stored (b : Backend) (k : string) (w : World) : option string :=
  items (area b w) !! k.

(** ** Accounts and the component's state *)

Record Account : Type := {
  username : string;
  password : string;
  name : string
}.

(** The three [useState] cells of [AuthProvider]. *)
Record Hooks : Type := {
  users : list Account;
  user : jsval;
  token : option string
}.

(** State updates requested by a handler and not rendered yet: [Some x]
    when the setter was called (last call wins). *)
Record Updates : Type := {
  next_users : option (list Account);
  next_user : option jsval;
  next_token : option (option string)
}.

Definition no_updates : Updates :=
  {| next_users := None; next_user := None; next_token := None |}.

Record Env : Type := {
  world : World;
  queue : Updates
}.

(** ** Computations that return or throw *)

Inductive Outcome (A : Type) : Type :=
  | Returned (a : A)
  | Thrown (err : Error).
Arguments Returned {A} a.
Arguments Thrown {A} err.

Definition Run (A : Type) : Type := Env -> Outcome A * Env.

Definition ret {A} (a : A) : Run A := fun e => (Returned a, e).

Definition throw {A} (err : Error) : Run A := fun e => (Thrown err, e).

Definition bind {A B} (m : Run A) (k : A -> Run B) : Run B :=
  fun e =>
    match m e with
    | (Returned a, e') => k a e'
    | (Thrown err, e') => (Thrown err, e')
    end.

(** [try { body } catch (err) { handler }] *)
Definition try_catch {A} (body : Run A) (handler : Error -> Run A) : Run A :=
  fun e =>
    match body e with
    | (Returned a, e') => (Returned a, e')
    | (Thrown err, e') => handler err e'
    end.

Declare Scope run_scope.
Delimit Scope run_scope with run.
Bind Scope run_scope with Run.
Notation "'let*' x ':=' m 'in' k" := (bind m (fun x => k))
  (at level 10, x name, m at level 100, k at level 200) : run_scope.
Notation "m '>>' k" := (bind m (fun _ => k))
  (at level 100, k at level 200, right associativity) : run_scope.
Local Open Scope run_scope.

Definition on_world (f : World -> World) : Run unit :=
  fun e => (Returned tt, {| world := f (world e); queue := queue e |}).

(** One storage call: it is journalled, then it throws or takes effect. *)
Definition storage_call (b : Backend) (c : Call) : Run (option string) :=
  fun e =>
    let w := record_call b c (world e) in
    let m := items (area b w) in
    if throws (area b w) c m then
      (Thrown (DOMException b c), {| world := w; queue := queue e |})
    else
      match c with
      | GetItem k => (Returned (m !! k), {| world := w; queue := queue e |})
      | SetItem k v =>
          (Returned None, {| world := with_items b (<[k := v]> m) w; queue := queue e |})
      | RemoveItem k =>
          (Returned None, {| world := with_items b (delete k m) w; queue := queue e |})
      end.

Definition getItem (b : Backend) (k : string) : Run (option string) :=
  storage_call b (GetItem k).

Definition setItem (b : Backend) (k v : string) : Run unit :=
  (storage_call b (SetItem k v) >> ret tt).

Definition removeItem (b : Backend) (k : string) : Run unit :=
  (storage_call b (RemoveItem k) >> ret tt).

Definition console_error (msg : string) (err : Error) : Run unit :=
  on_world (fun w =>
    {| localStorage := localStorage w; sessionStorage := sessionStorage w;
       console := console w ++ [(msg, err)]; journal := journal w;
       rng := rng w; draws := draws w |}).

(** [Math.random().toString(36).slice(2)] *)
Definition random_digits : Run string :=
  fun e =>
    let w := world e in
    (Returned (rng w (draws w)),
     {| world := {| localStorage := localStorage w; sessionStorage := sessionStorage w;
                    console := console w; journal := journal w;
                    rng := rng w; draws := S (draws w) |};
        queue := queue e |}).

Definition setUsers (l : list Account) : Run unit :=
  fun e => (Returned tt,
            {| world := world e;
               queue := {| next_users := Some l; next_user := next_user (queue e);
                           next_token := next_token (queue e) |} |}).

Definition setUser (v : jsval) : Run unit :=
  fun e => (Returned tt,
            {| world := world e;
               queue := {| next_users := next_users (queue e); next_user := Some v;
                           next_token := next_token (queue e) |} |}).

Definition setToken (t : option string) : Run unit :=
  fun e => (Returned tt,
            {| world := world e;
               queue := {| next_users := next_users (queue e);
                           next_user := next_user (queue e); next_token := Some t |} |}).

(** ** The provider (src/app.tsx, lines 21-126) *)

Definition LOCAL_USERS_KEY : string := "demo_users_v1".
Definition AUTH_USER_KEY : string := "demo_auth_user_v1".
Definition AUTH_TOKEN_KEY : string := "demo_auth_token_v1".

Record Result : Type := {
  success : bool;
  message : option string
}.

Definition ok : Result := {| success := true; message := None |}.
Definition failure (msg : string) : Result := {| success := false; message := Some msg |}.

(** The object literal [{ username, password, name }]. *)
Definition account_object (a : Account) : jsval :=
  JObj [("username", JStr (username a)); ("password", JStr (password a));
        ("name", JStr (name a))].

(** The object literal [{ username: a.username, name: a.name }]. *)
Definition publicUser (a : Account) : jsval :=
  JObj [("username", JStr (username a)); ("name", JStr (name a))].

(** Reading an account back from a parsed registry entry. *)
Definition as_account (v : jsval) : option Account :=
  match v with
  | JObj [(k1, JStr u); (k2, JStr p); (k3, JStr n)] =>
      if String.eqb k1 "username" && String.eqb k2 "password" && String.eqb k3 "name"
      then Some {| username := u; password := p; name := n |}
      else None
  | _ => None
  end.

Definition as_accounts (v : jsval) : option (list Account) :=
  match v with
  | JArr elems => mapM as_account elems
  | _ => None
  end.

(** [const isAuthenticated = useMemo(() => !!token, [token])] *)
Definition isAuthenticated (t : option string) : bool := truthy t.

(** The provider between two events: what the last render saw, and the
    browser. *)
Record Component : Type := {
  hooks : Hooks;
  browser : World
}.

(** The [useState] cells of [RegisterForm] and of [LoginForm]. *)
Record RegisterForm : Type := {
  rf_username : string;
  rf_password : string;
  rf_name : string;
  rf_remember : bool;
  rf_msg : option string
}.

Record LoginForm : Type := {
  lf_username : string;
  lf_password : string;
  lf_remember : bool;
  lf_msg : option string
}.

Section Provider.

(** [JSON.stringify] and [JSON.parse] belong to the platform; [None]
    from [JSON_parse] stands for the [SyntaxError] it throws. *)
Variable JSON_stringify : jsval -> string.
Variable JSON_parse : string -> option jsval.

Definition parse (raw : string) : Run jsval :=
  match JSON_parse raw with
  | Some v => ret v
  | None => throw (SyntaxError raw)
  end.

(** Lines 27-34: the initial value of [users]. *)
Definition initUsers : Run jsval :=
  try_catch
    (let* raw := getItem LocalStorage LOCAL_USERS_KEY in
     if truthy raw then parse (default "" raw) else ret (JArr []))
    (fun _ => ret (JArr [])).

(** [a.getItem(k) || b.getItem(k)]: the second call is made only when
    the first result is falsy, and then its result is the value. *)
Definition getItem_or (k : string) : Run (option string) :=
  let* l := getItem LocalStorage k in
  if truthy l then ret l else getItem SessionStorage k.

(** Lines 37-44: the initial value of [user]. *)
Definition initUser : Run jsval :=
  try_catch
    (let* raw := getItem_or AUTH_USER_KEY in
     if truthy raw then parse (default "" raw) else ret JNull)
    (fun _ => ret JNull).

(** Lines 46-52: the initial value of [token]. *)
Definition initToken : Run (option string) :=
  try_catch
    (let* raw := getItem_or AUTH_TOKEN_KEY in
     if truthy raw then ret raw else ret None)
    (fun _ => ret None).

(** Lines 55-61: the effect that follows a change of [users]. *)
Definition saveUsers (us : list Account) : Run unit :=
  try_catch
    (setItem LocalStorage LOCAL_USERS_KEY (JSON_stringify (JArr (account_object <$> us))))
    (fun err => console_error "Could not save users" err).

(** Lines 64-80. *)
Definition persistAuth (userObj : jsval) (tokenStr : string) (remember : bool) : Run unit :=
  try_catch
    (if remember then
       setItem LocalStorage AUTH_USER_KEY (JSON_stringify userObj) >>
       setItem LocalStorage AUTH_TOKEN_KEY tokenStr >>
       removeItem SessionStorage AUTH_USER_KEY >>
       removeItem SessionStorage AUTH_TOKEN_KEY
     else
       setItem SessionStorage AUTH_USER_KEY (JSON_stringify userObj) >>
       setItem SessionStorage AUTH_TOKEN_KEY tokenStr >>
       removeItem LocalStorage AUTH_USER_KEY >>
       removeItem LocalStorage AUTH_TOKEN_KEY)
    (fun err => console_error "persistAuth error" err).

(** Lines 92-96 and 106-110, shared by [register] and [login]. *)
Definition activate (a : Account) (remember : bool) : Run Result :=
  let* digits := random_digits in
  let fakeToken := "t_" ++ digits in
  setUser (publicUser a) >>
  setToken (Some fakeToken) >>
  persistAuth (publicUser a) fakeToken remember >>
  ret ok.

(** Lines 83-99.  [us] is the [users] of the render that made this
    callback. *)
Definition register (us : list Account) (input : Account) (remember : bool) : Run Result :=
  if falsy (username input) || falsy (password input) then
    ret (failure "Provide username and password")
  else if existsb (fun u => String.eqb (username u) (username input)) us then
    ret (failure "User already exists")
  else
    let newUser := {| username := username input; password := password input;
                      name := name input |} in
    setUsers (us ++ [newUser]) >>
    activate newUser remember.

(** Lines 102-113. *)
Definition login (us : list Account) (uname pword : string) (remember : bool) : Run Result :=
  match List.find (fun u => String.eqb (username u) uname && String.eqb (password u) pword) us with
  | None => ret (failure "Invalid credentials")
  | Some found => activate found remember
  end.

(** Lines 116-123. *)
Definition logout : Run unit :=
  setUser JNull >>
  setToken None >>
  removeItem SessionStorage AUTH_USER_KEY >>
  removeItem SessionStorage AUTH_TOKEN_KEY >>
  removeItem LocalStorage AUTH_USER_KEY >>
  removeItem LocalStorage AUTH_TOKEN_KEY.

(** *** Rendering

    A handler runs against the [users] of the last render; the state
    updates it requested are then applied, and the effect of lines
    55-61 runs when [setUsers] was given a new array (its dependency
    list is [[users]]).  Updates requested before a handler throws are
    applied all the same. *)

Definition apply_updates (q : Updates) (h : Hooks) : Hooks :=
  {| users := default (users h) (next_users q);
     user := default (user h) (next_user q);
     token := default (token h) (next_token q) |}.

Definition effects (q : Updates) (w : World) : World :=
  match next_users q with
  | Some us => world (snd (saveUsers us {| world := w; queue := no_updates |}))
  | None => w
  end.

Definition handle {A} (op : Run A) (c : Component) : Outcome A * Component :=
  let r := op {| world := browser c; queue := no_updates |} in
  (fst r, {| hooks := apply_updates (queue (snd r)) (hooks c);
             browser := effects (queue (snd r)) (world (snd r)) |}).

Inductive Action : Type :=
  | Register (input : Account) (remember : bool)
  | Login (uname pword : string) (remember : bool)
  | Logout.

(** What the context value's members do when a consumer calls them. *)
Definition act (a : Action) (c : Component) : Outcome (option Result) * Component :=
  match a with
  | Register input remember =>
      handle (let* r := register (users (hooks c)) input remember in ret (Some r)) c
  | Login uname pword remember =>
      handle (let* r := login (users (hooks c)) uname pword remember in ret (Some r)) c
  | Logout => handle (logout >> ret None) c
  end.

(** The first render: the three initial values in the order of the
    [useState] calls, then the effect.  [None] when the stored
    registry is not an array of accounts. *)
Definition mount (w : World) : option Component :=
  let r1 := initUsers {| world := w; queue := no_updates |} in
  let r2 := initUser (snd r1) in
  let r3 := initToken (snd r2) in
  match fst r1, fst r2, fst r3 with
  | Returned ju, Returned v, Returned t =>
      match as_accounts ju with
      | Some us =>
          Some {| hooks := {| users := us; user := v; token := t |};
                  browser := world (snd (saveUsers us (snd r3))) |}
      | None => None
      end
  | _, _, _ => None
  end.

(** Closing the tab: the page reopened in a new tab starts with an empty
    session storage area. *)
Definition close_tab (w : World) : World := with_items SessionStorage ∅ w.

Inductive step : Component -> Component -> Prop :=
  | step_act a c : step c (snd (act a c))
  | step_reload c c' : mount (browser c) = Some c' -> step c c'
  | step_reopen c c' : mount (close_tab (browser c)) = Some c' -> step c c'.

(** The states of a browser that first opened the page in [w0]. *)
Inductive reachable (w0 : World) : Component -> Prop :=
  | reach_mount c : mount w0 = Some c -> reachable w0 c
  | reach_step c c' : reachable w0 c -> step c c' -> reachable w0 c'.

(** *** The forms (lines 154-243) *)

(** Lines 164-172. *)
Definition RegisterForm_handleSubmit (us : list Account) (f : RegisterForm) : Run RegisterForm :=
  let* res := register us {| username := trim (rf_username f); password := rf_password f;
                             name := trim (rf_name f) |} (rf_remember f) in
  if success res then
    ret {| rf_username := ""; rf_password := ""; rf_name := "";
           rf_remember := rf_remember f; rf_msg := Some "Registered & logged in" |}
  else
    ret {| rf_username := rf_username f; rf_password := rf_password f;
           rf_name := rf_name f; rf_remember := rf_remember f;
           rf_msg := message res |}.

(** Lines 212-220. *)
Definition LoginForm_handleSubmit (us : list Account) (f : LoginForm) : Run LoginForm :=
  let* res := login us (trim (lf_username f)) (lf_password f) (lf_remember f) in
  if success res then
    ret {| lf_username := ""; lf_password := ""; lf_remember := lf_remember f;
           lf_msg := Some "Logged in" |}
  else
    ret {| lf_username := lf_username f; lf_password := lf_password f;
           lf_remember := lf_remember f; lf_msg := message res |}.

End Provider.

(** ** Storage areas that fail, and ones that do not *)

Definition never : Call -> gmap string string -> bool := fun _ _ => false.

(** Access to the area is denied: every call throws. *)
Definition denied : Call -> gmap string string -> bool := fun _ _ => true.

(** The quota is used up: every write throws. *)
Definition full : Call -> gmap string string -> bool :=
  fun c _ => match c with SetItem _ _ => true | _ => false end.

Definition reliable (s : Storage) : Prop := forall c m, throws s c m = false.

Definition fault_free (w : World) : Prop :=
  reliable (localStorage w) /\ reliable (sessionStorage w).

(** A browser with nothing stored, whose areas throw as [pl] and [ps] say. *)
Definition blank (pl ps : Call -> gmap string string -> bool) : World :=
  {| localStorage := {| items := ∅; throws := pl |};
     sessionStorage := {| items := ∅; throws := ps |};
     console := []; journal := [];
     rng := fun n => String.concat "" (replicate (S n) "x"); draws := 0 |}.

(** ** Where the session pair is *)

(** The backend [persistAuth] writes to, and the one it clears. *)
Definition chosen (remember : bool) : Backend :=
  if remember then LocalStorage else SessionStorage.

Definition other (remember : bool) : Backend :=
  if remember then SessionStorage else LocalStorage.

Definition present (b : Backend) (w : World) : Prop :=
  is_Some (stored b AUTH_USER_KEY w) /\ is_Some (stored b AUTH_TOKEN_KEY w).

Definition absent (b : Backend) (w : World) : Prop :=
  stored b AUTH_USER_KEY w = None /\ stored b AUTH_TOKEN_KEY w = None.

Definition holds_pair (b : Backend) (userText tokenStr : string) (w : World) : Prop :=
  stored b AUTH_USER_KEY w = Some userText /\ stored b AUTH_TOKEN_KEY w = Some tokenStr.

Definition in_exactly_one (w : World) : Prop :=
  (present LocalStorage w /\ absent SessionStorage w) \/
  (present SessionStorage w /\ absent LocalStorage w).

Definition session_key (k : string) : Prop := k = AUTH_USER_KEY \/ k = AUTH_TOKEN_KEY.

(** A first visit: no session key is stored yet. *)
Definition pristine (w : World) : Prop :=
  absent LocalStorage w /\ absent SessionStorage w.

(** ** What a computation may change *)

Definition call_key (c : Call) : string :=
  match c with
  | GetItem k => k
  | SetItem k _ => k
  | RemoveItem k => k
  end.

Definition is_write (c : Call) : bool :=
  match c with
  | GetItem _ => false
  | _ => true
  end.

(** [evolves K P w w']: from [w] to [w'] the areas throw under the same
    conditions, entries outside [K] are as they were, and the calls
    added to the journal all satisfy [P]. *)
Definition evolves (K : Backend -> string -> Prop) (P : Backend -> Call -> Prop)
    (w w' : World) : Prop :=
  throws (localStorage w') = throws (localStorage w) /\
  throws (sessionStorage w') = throws (sessionStorage w) /\
  rng w' = rng w /\
  (forall b k, ~ K b k -> stored b k w' = stored b k w) /\
  exists new, journal w' = (journal w ++ new)%list /\ Forall (fun bc => P bc.1 bc.2) new.

Definition stays {A} (K : Backend -> string -> Prop) (P : Backend -> Call -> Prop)
    (m : Run A) : Prop :=
  forall e, evolves K P (world e) (world (snd (m e))).

(** No storage call of the given kind throws. *)
Definition reads_succeed (w : World) : Prop :=
  forall b k m, throws (area b w) (GetItem k) m = false.

Definition removals_succeed (w : World) : Prop :=
  forall b k m, throws (area b w) (RemoveItem k) m = false.

(** ** A platform for the examples *)

Module Sample.

Definition quote_mark : string := String (Ascii.ascii_of_nat 34) "".
Definition backslash : string := String (Ascii.ascii_of_nat 92) "".

Definition hex (n : nat) : string :=
  match n with
  | 0 => "0" | 1 => "1" | 2 => "2" | 3 => "3" | 4 => "4" | 5 => "5" | 6 => "6"
  | 7 => "7" | 8 => "8" | 9 => "9" | 10 => "a" | 11 => "b" | 12 => "c"
  | 13 => "d" | 14 => "e" | _ => "f"
  end.

Definition escape (c : Ascii.ascii) : string :=
  let n := Ascii.nat_of_ascii c in
  if Nat.eqb n 34 then String.append backslash quote_mark
  else if Nat.eqb n 92 then String.append backslash backslash
  else if Nat.eqb n 8 then String.append backslash "b"
  else if Nat.eqb n 12 then String.append backslash "f"
  else if Nat.eqb n 10 then String.append backslash "n"
  else if Nat.eqb n 13 then String.append backslash "r"
  else if Nat.eqb n 9 then String.append backslash "t"
  else if Nat.ltb n 32 then
    String.append backslash
      (String.append "u00" (String.append (hex (n / 16)) (hex (n mod 16))))
  else String c "".

Fixpoint escape_all (s : string) : string :=
  match s with
  | String c s' => String.append (escape c) (escape_all s')
  | EmptyString => EmptyString
  end.

Definition quoted (s : string) : string :=
  String.append quote_mark (String.append (escape_all s) quote_mark).

(** The text [JSON.stringify] gives for a value of [jsval]. *)
Fixpoint stringify (v : jsval) : string :=
  match v with
  | JNull => "null"
  | JBool b => if b then "true" else "false"
  | JNum lexeme => lexeme
  | JStr s => quoted s
  | JArr elems =>
      String.append "[" (String.append (String.concat "," (List.map stringify elems)) "]")
  | JObj props =>
      String.append "{"
        (String.append
           (String.concat ","
              (List.map (fun kv => match kv with
                                   | (k, x) => String.append (quoted k)
                                                 (String.append ":" (stringify x))
                                   end) props))
           "}")
  end.

(** A [JSON.parse] that rejects every text: the examples below store
    JSON and never read it back. *)
Definition parse : string -> option jsval := fun _ => None.

Definition alice : Account := {| username := "alice"; password := "pw1"; name := "Alice" |}.
Definition bob : Account := {| username := "bob"; password := " "; name := "" |}.

(** The provider as first mounted in a browser with nothing stored. *)
Definition start (pl ps : Call -> gmap string string -> bool) : Component :=
  {| hooks := {| users := []; user := JNull; token := None |};
     browser := blank pl ps |}.

(** A browser that holds a remembered session and now denies access to
    both areas, and a provider in which [alice] has since signed in. *)
Definition locked_out : Component :=
  {| hooks := {| users := [alice]; user := publicUser alice; token := Some "t_new" |};
     browser :=
       {| localStorage :=
            {| items := {[ AUTH_USER_KEY := stringify (publicUser alice);
                           AUTH_TOKEN_KEY := "t_old" ]};
               throws := denied |};
          sessionStorage := {| items := ∅; throws := denied |};
          console := []; journal := []; rng := fun _ => "x"; draws := 0 |} |}.

End Sample.

(** ** Vocabulary of the statements *)

(** [quiet m]: [m] calls no state setter. *)
Definition quiet {A} (m : Run A) : Prop := forall e, queue (snd (m e)) = queue e.

(** The state in which [activate] calls [persistAuth]. *)
Definition after_draw (e : Env) (a : Account) : Env :=
  {| world := {| localStorage := localStorage (world e);
                 sessionStorage := sessionStorage (world e);
                 console := console (world e); journal := journal (world e);
                 rng := rng (world e); draws := S (draws (world e)) |};
     queue := {| next_users := next_users (queue e);
                 next_user := Some (publicUser a);
                 next_token := Some (Some ("t_" ++ rng (world e) (draws (world e)))) |} |}.

(** The state in which a handler starts: nothing requested yet. *)
Definition first_env (c : Component) : Env := {| world := browser c; queue := no_updates |}.

Definition remembers (a : Action) : bool :=
  match a with
  | Register _ remember => remember
  | Login _ _ remember => remember
  | Logout => false
  end.

(** The account an action signs in, against the registry [us]. *)
Definition account_of (a : Action) (us : list Account) : option Account :=
  match a with
  | Register input _ => Some input
  | Login uname pword _ =>
      List.find (fun u => String.eqb (username u) uname && String.eqb (password u) pword) us
  | Logout => None
  end.

Definition opposite (b : Backend) : Backend :=
  match b with
  | LocalStorage => SessionStorage
  | SessionStorage => LocalStorage
  end.

(** The session pair is in [b] and not in the other backend, and the
    current token, if there is one, is the one stored in [b]. *)
Definition session_in (b : Backend) (c : Component) : Prop :=
  present b (browser c) /\ absent (opposite b) (browser c) /\
  (forall t, token (hooks c) = Some t -> stored b AUTH_TOKEN_KEY (browser c) = Some t).

Definition settled (c : Component) : Prop :=
  (exists b, session_in b c) \/
  (absent LocalStorage (browser c) /\ absent SessionStorage (browser c) /\
   token (hooks c) = None).

Definition registry_only (b : Backend) (k : string) : Prop :=
  b = LocalStorage /\ k = LOCAL_USERS_KEY.

Definition any_call (b : Backend) (c : Call) : Prop := True.

Definition app_keys (b : Backend) (k : string) : Prop :=
  session_key k \/ registry_only b k.

Module Examples.

Import Sample.

(** The first render in a browser with nothing stored. *)
Definition opened (pl ps : Call -> gmap string string -> bool) : Component :=
  default (start pl ps) (mount stringify parse (blank pl ps)).

(** [alice] registers with remember-me on, in a browser that works. *)
Definition signed_in : Component :=
  snd (act stringify (Register alice true) (opened never never)).

(** The same in a browser whose durable area is full. *)
Definition signed_in_full : Component :=
  snd (act stringify (Register alice true) (opened full never)).

(** A second registration under the same username. *)
Definition alice2 : Account := {| username := "alice"; password := "pw2"; name := "Alice2" |}.

(** Both backends hold a session pair. *)
Definition both : World :=
  {| localStorage :=
       {| items := {[ AUTH_USER_KEY := stringify (publicUser alice);
                      AUTH_TOKEN_KEY := "t_durable" ]};
          throws := never |};
     sessionStorage :=
       {| items := {[ AUTH_USER_KEY := stringify (publicUser bob);
                      AUTH_TOKEN_KEY := "t_tab" ]};
          throws := never |};
     console := []; journal := []; rng := fun _ => "x"; draws := 0 |}.

(** The durable backend holds an empty string under the token key. *)
Definition emptied : World :=
  {| localStorage := {| items := {[ AUTH_TOKEN_KEY := "" ]}; throws := never |};
     sessionStorage := {| items := {[ AUTH_TOKEN_KEY := "t_tab" ]}; throws := never |};
     console := []; journal := []; rng := fun _ => "x"; draws := 0 |}.

End Examples.

(** ** The consumers of the context (lines 147-314) *)

(** [UsersList], line 276: [users.map(u => u.username)], the texts and
    keys of the list items. *)
Definition userNames (us : list Account) : list string := username <$> us.

(** What [AuthDemo] renders (lines 291-314). *)
Inductive View : Type := ProfileView | LoginFormView | RegisterFormView.

Definition AuthDemo (authenticated : bool) (mode : string) : View :=
  if authenticated then ProfileView
  else if String.eqb mode "login" then LoginFormView else RegisterFormView.

(** The view of a provider state under a given [mode]. *)
Definition view (mode : string) (c : Component) : View :=
  AuthDemo (isAuthenticated (token (hooks c))) mode.

(** Truth value of a value that may be [undefined] ([None]).  The truth
    value and the text of a number depend on its value as a double,
    which this model does not have: [None] there. *)
Definition js_truthy (v : option jsval) : option bool :=
  match v with
  | None => Some false
  | Some JNull => Some false
  | Some (JBool b) => Some b
  | Some (JNum _) => None
  | Some (JStr s) => Some (negb (falsy s))
  | Some (JArr _) => Some true
  | Some (JObj _) => Some true
  end.

(** The text a template literal gives for a value. *)
Fixpoint to_text (v : jsval) : option string :=
  match v with
  | JNull => Some "null"
  | JBool b => Some (if b then "true" else "false")
  | JNum _ => None
  | JStr s => Some s
  | JArr elems =>
      String.concat "," <$>
        mapM (fun e => match e with JNull => Some "" | _ => to_text e end) elems
  | JObj _ => Some "[object Object]"
  end.

(** [UserProfile], lines 255-258: the greeting. *)
Definition greeting (user : jsval) : option string :=
  match js_truthy (Some user) with
  | None => None
  | Some false => Some "No user"
  | Some true =>
      match js_truthy (get_prop user "name") with
      | None => None
      | Some named =>
          match (if named then get_prop user "name" else get_prop user "username") with
          | None => Some "Hello, undefined"
          | Some v => String.append "Hello, " <$> to_text v
          end
      end
  end.

(** A sequence of calls of the context's operations, each followed by
    its render. *)
Fixpoint perform (JSON_stringify : jsval -> string) (actions : list Action)
    (c : Component) : Component :=
  match actions with
  | [] => c
  | a :: rest => perform JSON_stringify rest (snd (act JSON_stringify a c))
  end.

(** Submitting a form: its handler, then the render. *)
Definition submitRegister (JSON_stringify : jsval -> string) (f : RegisterForm)
    (c : Component) : Outcome RegisterForm * Component :=
  handle JSON_stringify (RegisterForm_handleSubmit JSON_stringify (users (hooks c)) f) c.

Definition submitLogin (JSON_stringify : jsval -> string) (f : LoginForm)
    (c : Component) : Outcome LoginForm * Component :=
  handle JSON_stringify (LoginForm_handleSubmit JSON_stringify (users (hooks c)) f) c.

(** The durable backend holds the serialisation of the registry in
    memory. *)
Definition mirrored (JSON_stringify : jsval -> string) (c : Component) : Prop :=
  stored LocalStorage LOCAL_USERS_KEY (browser c) =
    Some (JSON_stringify (JArr (account_object <$> users (hooks c)))).

(** The text the initial values read under [k]: the durable one unless
    it is absent or empty. *)
Definition restored_text (k : string) (w : World) : option string :=
  if truthy (stored LocalStorage k w) then stored LocalStorage k w
  else stored SessionStorage k w.

(** [silent m]: [m] logs nothing. *)
Definition silent {A} (m : Run A) : Prop :=
  forall e, console (world (snd (m e))) = console (world e).

(** Every call but a write to the durable backend succeeds, and every
    such write throws. *)
Definition durable_full (w : World) : Prop :=
  (forall k v m, throws (localStorage w) (SetItem k v) m = true) /\
  (forall k m, throws (localStorage w) (GetItem k) m = false) /\
  (forall k m, throws (localStorage w) (RemoveItem k) m = false) /\
  reliable (sessionStorage w).

(** The storage calls of the [try] block of [persistAuth] (lines 66-76),
    in the order it makes them. *)
Definition persistAuth_calls (userText tokenStr : string) (remember : bool) :
    list (Backend * Call) :=
  [(chosen remember, SetItem AUTH_USER_KEY userText);
   (chosen remember, SetItem AUTH_TOKEN_KEY tokenStr);
   (other remember, RemoveItem AUTH_USER_KEY);
   (other remember, RemoveItem AUTH_TOKEN_KEY)].

(** Of a sequence of storage calls made in order from [e], each after
    the effect of the ones before it: the calls made, which stop at the
    first one that throws, and that one, [None] when none throws. *)
Fixpoint calls_made (calls : list (Backend * Call)) (e : Env) : list (Backend * Call) :=
  match calls with
  | [] => []
  | (b, c) :: rest =>
      match storage_call b c e with
      | (Returned _, e') => (b, c) :: calls_made rest e'
      | (Thrown _, _) => [(b, c)]
      end
  end.

Fixpoint first_failure (calls : list (Backend * Call)) (e : Env) : option (Backend * Call) :=
  match calls with
  | [] => None
  | (b, c) :: rest =>
      match storage_call b c e with
      | (Returned _, e') => first_failure rest e'
      | (Thrown _, _) => Some (b, c)
      end
  end.

(** The cells of a form in the render that follows its submit.
    [AuthDemo] (lines 295-311) renders a form only while no token is
    set.  A form that is still rendered has the cells its handler
    requested, or its cells as they were when the handler threw before
    requesting any; a form that is no longer rendered is unmounted, and
    its cells are dropped with the requests made on them. *)
Definition RegisterForm_after_submit (JSON_stringify : jsval -> string) (mode : string)
    (f : RegisterForm) (c : Component) : option RegisterForm :=
  match view mode (snd (submitRegister JSON_stringify f c)) with
  | RegisterFormView =>
      match fst (submitRegister JSON_stringify f c) with
      | Returned requested => Some requested
      | Thrown _ => Some f
      end
  | _ => None
  end.

Definition LoginForm_after_submit (JSON_stringify : jsval -> string) (mode : string)
    (g : LoginForm) (c : Component) : option LoginForm :=
  match view mode (snd (submitLogin JSON_stringify g c)) with
  | LoginFormView =>
      match fst (submitLogin JSON_stringify g c) with
      | Returned requested => Some requested
      | Thrown _ => Some g
      end
  | _ => None
  end.

(** ** A reader of JSON text for the examples

    It reads the texts [Sample.stringify] writes: literals, strings with
    their escapes, arrays and objects.  A number is kept as its text; a
    repeated key replaces the earlier value. *)

Module Json.

Definition code (c : Ascii.ascii) : nat := Ascii.nat_of_ascii c.

Definition is_ws (c : Ascii.ascii) : bool :=
  Nat.eqb (code c) 32 || Nat.eqb (code c) 9 || Nat.eqb (code c) 10 || Nat.eqb (code c) 13.

Fixpoint skip_ws (cs : list Ascii.ascii) : list Ascii.ascii :=
  match cs with
  | c :: rest => if is_ws c then skip_ws rest else cs
  | [] => []
  end.

Definition is_digit (c : Ascii.ascii) : bool :=
  Nat.leb 48 (code c) && Nat.leb (code c) 57.

Definition hex_value (c : Ascii.ascii) : option nat :=
  let n := code c in
  if Nat.leb 48 n && Nat.leb n 57 then Some (n - 48)
  else if Nat.leb 97 n && Nat.leb n 102 then Some (n - 87)
  else if Nat.leb 65 n && Nat.leb n 70 then Some (n - 55)
  else None.

(** The character an escape letter stands for. *)
Definition unescape (n : nat) : option Ascii.ascii :=
  if Nat.eqb n 34 then Some (Ascii.ascii_of_nat 34)
  else if Nat.eqb n 92 then Some (Ascii.ascii_of_nat 92)
  else if Nat.eqb n 47 then Some (Ascii.ascii_of_nat 47)
  else if Nat.eqb n 98 then Some (Ascii.ascii_of_nat 8)
  else if Nat.eqb n 102 then Some (Ascii.ascii_of_nat 12)
  else if Nat.eqb n 110 then Some (Ascii.ascii_of_nat 10)
  else if Nat.eqb n 114 then Some (Ascii.ascii_of_nat 13)
  else if Nat.eqb n 116 then Some (Ascii.ascii_of_nat 9)
  else None.

Definition push (c : Ascii.ascii) (r : string * list Ascii.ascii) : string * list Ascii.ascii :=
  (String c (fst r), snd r).

(** The characters of a string literal, after its opening quote. *)
Fixpoint read_chars (cs : list Ascii.ascii) : option (string * list Ascii.ascii) :=
  match cs with
  | [] => None
  | c :: rest =>
      if Nat.eqb (code c) 34 then Some (EmptyString, rest)
      else if Nat.eqb (code c) 92 then
        match rest with
        | e :: rest' =>
            if Nat.eqb (code e) 117 then
              match rest' with
              | h1 :: h2 :: h3 :: h4 :: rest'' =>
                  match hex_value h1, hex_value h2, hex_value h3, hex_value h4 with
                  | Some a, Some b, Some c', Some d =>
                      let u := ((a * 16 + b) * 16 + c') * 16 + d in
                      if Nat.ltb u 256
                      then push (Ascii.ascii_of_nat u) <$> read_chars rest''
                      else None
                  | _, _, _, _ => None
                  end
              | _ => None
              end
            else
              match unescape (code e) with
              | Some ch => push ch <$> read_chars rest'
              | None => None
              end
        | [] => None
        end
      else if Nat.ltb (code c) 32 then None
      else push c <$> read_chars rest
  end.

Fixpoint span_digits (cs : list Ascii.ascii) : list Ascii.ascii * list Ascii.ascii :=
  match cs with
  | c :: rest =>
      if is_digit c then (c :: fst (span_digits rest), snd (span_digits rest)) else ([], cs)
  | [] => ([], [])
  end.

(** A number, by the grammar of JSON. *)
Definition read_number (cs : list Ascii.ascii) : option (string * list Ascii.ascii) :=
  let signed := match cs with
                | c :: rest => if Nat.eqb (code c) 45 then ([c], rest) else ([], cs)
                | [] => ([], [])
                end in
  let whole := span_digits (snd signed) in
  let whole_ok := match fst whole with
                  | [] => false
                  | [_] => true
                  | d :: _ => negb (Nat.eqb (code d) 48)
                  end in
  let fraction := match snd whole with
                  | c :: rest =>
                      if Nat.eqb (code c) 46 then
                        match span_digits rest with
                        | ([], _) => None
                        | (ds, rest') => Some (c :: ds, rest')
                        end
                      else Some ([], snd whole)
                  | [] => Some ([], [])
                  end in
  match fraction with
  | None => None
  | Some (frac, after) =>
      let exponent := match after with
                      | c :: rest =>
                          if Nat.eqb (code c) 101 || Nat.eqb (code c) 69 then
                            let sign := match rest with
                                        | s :: rest' =>
                                            if Nat.eqb (code s) 43 || Nat.eqb (code s) 45
                                            then ([s], rest') else ([], rest)
                                        | [] => ([], [])
                                        end in
                            match span_digits (snd sign) with
                            | ([], _) => None
                            | (ds, rest') => Some (((c :: fst sign) ++ ds)%list, rest')
                            end
                          else Some ([], after)
                      | [] => Some ([], [])
                      end in
      match exponent with
      | None => None
      | Some (ex, final) =>
          if whole_ok
          then Some (String.string_of_list_ascii (fst signed ++ fst whole ++ frac ++ ex)%list, final)
          else None
      end
  end.

(** One or more items separated by commas, up to the closing character. *)
Fixpoint read_seq {A} (item : list Ascii.ascii -> option (A * list Ascii.ascii))
    (close : nat) (n : nat) (cs : list Ascii.ascii) : option (list A * list Ascii.ascii) :=
  match n with
  | 0 => None
  | S n' =>
      match item cs with
      | Some (x, rest) =>
          match skip_ws rest with
          | c :: rest' =>
              if Nat.eqb (code c) 44 then
                match read_seq item close n' rest' with
                | Some (xs, final) => Some (x :: xs, final)
                | None => None
                end
              else if Nat.eqb (code c) close then Some ([x], rest')
              else None
          | [] => None
          end
      | None => None
      end
  end.

Fixpoint put (k : string) (v : jsval) (props : list (string * jsval)) : list (string * jsval) :=
  match props with
  | [] => [(k, v)]
  | (k', v') :: rest => if String.eqb k' k then (k', v) :: rest else (k', v') :: put k v rest
  end.

Definition starts_with (word : string) (cs : list Ascii.ascii) : option (list Ascii.ascii) :=
  let w := String.list_ascii_of_string word in
  if bool_decide (take (length w) cs = w) then Some (drop (length w) cs) else None.

Fixpoint read_value (fuel : nat) (cs : list Ascii.ascii) : option (jsval * list Ascii.ascii) :=
  match fuel with
  | 0 => None
  | S fuel' =>
      match skip_ws cs with
      | [] => None
      | c :: rest =>
          if Nat.eqb (code c) 34 then
            match read_chars rest with
            | Some (s, final) => Some (JStr s, final)
            | None => None
            end
          else if Nat.eqb (code c) 91 then
            match skip_ws rest with
            | d :: rest' =>
                if Nat.eqb (code d) 93 then Some (JArr [], rest')
                else
                  match read_seq (read_value fuel') 93 (length rest) rest with
                  | Some (xs, final) => Some (JArr xs, final)
                  | None => None
                  end
            | [] => None
            end
          else if Nat.eqb (code c) 123 then
            match skip_ws rest with
            | d :: rest' =>
                if Nat.eqb (code d) 125 then Some (JObj [], rest')
                else
                  match read_seq
                          (fun cs' =>
                             match skip_ws cs' with
                             | q :: r1 =>
                                 if Nat.eqb (code q) 34 then
                                   match read_chars r1 with
                                   | Some (k, r2) =>
                                       match skip_ws r2 with
                                       | colon :: r3 =>
                                           if Nat.eqb (code colon) 58 then
                                             match read_value fuel' r3 with
                                             | Some (v, r4) => Some ((k, v), r4)
                                             | None => None
                                             end
                                           else None
                                       | [] => None
                                       end
                                   | None => None
                                   end
                                 else None
                             | [] => None
                             end)
                          125 (length rest) rest with
                  | Some (kvs, final) =>
                      Some (JObj (fold_left (fun props kv => put (fst kv) (snd kv) props) kvs []),
                            final)
                  | None => None
                  end
            | [] => None
            end
          else
            match starts_with "null" (c :: rest), starts_with "true" (c :: rest),
                  starts_with "false" (c :: rest) with
            | Some final, _, _ => Some (JNull, final)
            | _, Some final, _ => Some (JBool true, final)
            | _, _, Some final => Some (JBool false, final)
            | None, None, None =>
                match read_number (c :: rest) with
                | Some (lexeme, final) => Some (JNum lexeme, final)
                | None => None
                end
            end
      end
  end.

Definition parse (raw : string) : option jsval :=
  let cs := String.list_ascii_of_string raw in
  match read_value (S (length cs)) cs with
  | Some (v, rest) =>
      match skip_ws rest with
      | [] => Some v
      | _ :: _ => None
      end
  | None => None
  end.

End Json.

(** ** More states for the examples *)

Module Cases.

(** The page reopened in a new tab after [alice] registered with
    remember-me on. *)
Definition reopened : Component :=
  default Examples.signed_in
    (mount Sample.stringify Json.parse (close_tab (browser Examples.signed_in))).

(** [alice] signs in again, without remember-me. *)
Definition tab_only : Component :=
  snd (act Sample.stringify (Login "alice" "pw1" false) Examples.signed_in).

Definition tab_only_reopened : Component :=
  default tab_only (mount Sample.stringify Json.parse (close_tab (browser tab_only))).

(** [alice] logs out, and the page is reloaded. *)
Definition signed_out : Component := snd (act Sample.stringify Logout Examples.signed_in).

Definition signed_out_reloaded : Component :=
  default signed_out (mount Sample.stringify Json.parse (browser signed_out)).

(** A tab that holds the session of [bob], in a browser whose durable
    area is full. *)
Definition crowded : Component :=
  {| hooks := {| users := [Sample.alice; Sample.bob]; user := publicUser Sample.bob;
                 token := Some "t_bob" |};
     browser :=
       {| localStorage := {| items := ∅; throws := full |};
          sessionStorage :=
            {| items := {[ AUTH_USER_KEY := Sample.stringify (publicUser Sample.bob);
                           AUTH_TOKEN_KEY := "t_bob" ]};
               throws := never |};
          console := []; journal := []; rng := fun _ => "x"; draws := 0 |} |}.

Definition crowded_reloaded : Component :=
  default crowded
    (mount Sample.stringify Json.parse
       (browser (snd (act Sample.stringify (Login "alice" "pw1" true) crowded)))).

(** The durable backend holds a token and no user. *)
Definition token_only : World :=
  {| localStorage := {| items := {[ AUTH_TOKEN_KEY := "t_left" ]}; throws := never |};
     sessionStorage := {| items := ∅; throws := never |};
     console := []; journal := []; rng := fun _ => "x"; draws := 0 |}.

Definition token_only_mounted : Component :=
  default Examples.signed_in (mount Sample.stringify Json.parse token_only).

(** The durable backend holds a user and no token; the session-scoped
    backend holds the pair of another user. *)
Definition mixed : World :=
  {| localStorage :=
       {| items := {[ AUTH_USER_KEY := Sample.stringify (publicUser Sample.alice) ]};
          throws := never |};
     sessionStorage :=
       {| items := {[ AUTH_USER_KEY := Sample.stringify (publicUser Sample.bob);
                      AUTH_TOKEN_KEY := "t_bob" ]};
          throws := never |};
     console := []; journal := []; rng := fun _ => "x"; draws := 0 |}.

Definition mixed_mounted : Component :=
  default Examples.signed_in (mount Sample.stringify Json.parse mixed).

(** The registry key holds a text that is not JSON. *)
Definition garbled : World :=
  {| localStorage := {| items := {[ LOCAL_USERS_KEY := "[{oops" ]}; throws := never |};
     sessionStorage := {| items := ∅; throws := never |};
     console := []; journal := []; rng := fun _ => "x"; draws := 0 |}.

(** The forms as typed, with white space around the username. *)
Definition typed : RegisterForm :=
  {| rf_username := "  carol "; rf_password := "pw3"; rf_name := " ";
     rf_remember := false; rf_msg := None |}.

Definition retyped : LoginForm :=
  {| lf_username := "carol   "; lf_password := "pw3"; lf_remember := true;
     lf_msg := Some "Invalid credentials" |}.

(** A register form with no password, and the login form of [alice]. *)
Definition unfinished : RegisterForm :=
  {| rf_username := "dave"; rf_password := ""; rf_name := "Dave";
     rf_remember := true; rf_msg := None |}.

Definition returning : LoginForm :=
  {| lf_username := " alice"; lf_password := "pw1"; lf_remember := false;
     lf_msg := None |}.

(** A handler starting in a browser with nothing stored, whose
    session-scoped area denies access. *)
Definition tab_denied : Env :=
  {| world := blank never denied; queue := no_updates |}.

End Cases.

(** * Proofs *)

(** ** Storage calls and the journal *)

Lemma stored_with_items b b' k m w :
  stored b' k (with_items b m w) = if decide (b = b') then m !! k else stored b' k w.
Proof. destruct b, b'; reflexivity. Qed.

Lemma stored_record_call b b' c k w :
  stored b' k (record_call b c w) = stored b' k w.
Proof. destruct b'; reflexivity. Qed.

Section Frames.

Variable K : Backend -> string -> Prop.
Variable P : Backend -> Call -> Prop.

Lemma evolves_refl w : evolves K P w w.
Proof.
  split_and!; try done. exists []. split; [by rewrite app_nil_r | constructor].
Qed.

Lemma evolves_trans w1 w2 w3 :
  evolves K P w1 w2 -> evolves K P w2 w3 -> evolves K P w1 w3.
Proof.
  intros (Hl1 & Hs1 & Hr1 & Hk1 & n1 & Hj1 & Hp1) (Hl2 & Hs2 & Hr2 & Hk2 & n2 & Hj2 & Hp2).
  split_and!; try congruence.
  - intros b k Hn. rewrite Hk2, Hk1; done.
  - exists (n1 ++ n2)%list. split; [by rewrite Hj2, Hj1, app_assoc | by apply Forall_app].
Qed.

Lemma stays_ret {A} (a : A) : stays K P (ret a).
Proof. intros e. apply evolves_refl. Qed.

Lemma stays_throw {A} err : stays K P (@throw A err).
Proof. intros e. apply evolves_refl. Qed.

Lemma stays_bind {A B} (m : Run A) (k : A -> Run B) :
  stays K P m -> (forall a, stays K P (k a)) -> stays K P (bind m k).
Proof.
  intros Hm Hk e. unfold bind. specialize (Hm e).
  destruct (m e) as [[a | err] e']; cbn in *; [| done].
  eapply evolves_trans; [exact Hm | apply Hk].
Qed.

Lemma stays_try_catch {A} (body : Run A) (handler : Error -> Run A) :
  stays K P body -> (forall err, stays K P (handler err)) -> stays K P (try_catch body handler).
Proof.
  intros Hm Hk e. unfold try_catch. specialize (Hm e).
  destruct (body e) as [[a | err] e']; cbn in *; [done |].
  eapply evolves_trans; [exact Hm | apply Hk].
Qed.

Lemma stays_storage_call b c :
  (is_write c = true -> K b (call_key c)) -> P b c -> stays K P (storage_call b c).
Proof.
  intros Hw Hp [w q]. unfold storage_call. cbn [world queue].
  assert (Hrec : evolves K P w (record_call b c w)).
  { split_and!; try done.
    exists [(b, c)]. split; [done | by repeat constructor]. }
  destruct (throws _ _ _); [exact Hrec |].
  assert (Hput : forall m', (forall k', k' <> call_key c -> m' !! k' = items (area b w) !! k') ->
            is_write c = true -> evolves K P w (with_items b m' (record_call b c w))).
  { intros m' Hm' Hc. eapply evolves_trans; [exact Hrec |].
    split_and!; try (by destruct b).
    - intros b' k' Hn. rewrite stored_with_items, stored_record_call.
      case_decide as Hb; [subst b' | done].
      apply Hm'. intros ->. by apply Hn, Hw.
    - exists []. split; [destruct b; cbn; by rewrite app_nil_r | constructor]. }
  destruct c as [k | k v | k]; cbn [snd world]; [exact Hrec | |]; apply Hput; try done;
    intros k' Hk'; cbn in Hk'; destruct b; cbn;
    by rewrite ?lookup_insert_ne, ?lookup_delete_ne.
Qed.

Lemma stays_getItem b k : P b (GetItem k) -> stays K P (getItem b k).
Proof. intros. apply stays_storage_call; [done | done]. Qed.

Lemma stays_setItem b k v : K b k -> P b (SetItem k v) -> stays K P (setItem b k v).
Proof.
  intros. apply stays_bind; [by apply stays_storage_call | intros; apply stays_ret].
Qed.

Lemma stays_removeItem b k : K b k -> P b (RemoveItem k) -> stays K P (removeItem b k).
Proof.
  intros. apply stays_bind; [by apply stays_storage_call | intros; apply stays_ret].
Qed.

Lemma stays_console_error msg err : stays K P (console_error msg err).
Proof.
  intros e. split_and!; try done. exists []. split; [cbn; by rewrite app_nil_r | constructor].
Qed.

Lemma stays_random_digits : stays K P random_digits.
Proof.
  intros e. split_and!; try done. exists []. split; [cbn; by rewrite app_nil_r | constructor].
Qed.

Lemma stays_setUsers l : stays K P (setUsers l).
Proof. intros e. apply evolves_refl. Qed.

Lemma stays_setUser v : stays K P (setUser v).
Proof. intros e. apply evolves_refl. Qed.

Lemma stays_setToken t : stays K P (setToken t).
Proof. intros e. apply evolves_refl. Qed.

End Frames.

Create HintDb stays discriminated.
#[export] Hint Resolve stays_ret stays_throw stays_bind stays_try_catch stays_getItem
  stays_setItem stays_removeItem stays_console_error stays_random_digits
  stays_setUsers stays_setUser stays_setToken : stays.

(** ** The queue of state updates *)

Lemma quiet_ret {A} (a : A) : quiet (ret a).
Proof. done. Qed.

Lemma quiet_throw {A} err : quiet (@throw A err).
Proof. done. Qed.

Lemma quiet_bind {A B} (m : Run A) (k : A -> Run B) :
  quiet m -> (forall a, quiet (k a)) -> quiet (bind m k).
Proof.
  intros Hm Hk e. unfold bind. specialize (Hm e).
  destruct (m e) as [[a | err] e']; cbn in *; [| done]. by rewrite Hk.
Qed.

Lemma quiet_try_catch {A} (body : Run A) (handler : Error -> Run A) :
  quiet body -> (forall err, quiet (handler err)) -> quiet (try_catch body handler).
Proof.
  intros Hm Hk e. unfold try_catch. specialize (Hm e).
  destruct (body e) as [[a | err] e']; cbn in *; [done |]. by rewrite Hk.
Qed.

Lemma quiet_storage_call b c : quiet (storage_call b c).
Proof. intros e. unfold storage_call. destruct (throws _ _ _); [done |]. by destruct c. Qed.

Lemma quiet_getItem b k : quiet (getItem b k).
Proof. apply quiet_storage_call. Qed.

Lemma quiet_setItem b k v : quiet (setItem b k v).
Proof. apply quiet_bind; [apply quiet_storage_call | intros; apply quiet_ret]. Qed.

Lemma quiet_removeItem b k : quiet (removeItem b k).
Proof. apply quiet_bind; [apply quiet_storage_call | intros; apply quiet_ret]. Qed.

Lemma quiet_console_error msg err : quiet (console_error msg err).
Proof. done. Qed.

Lemma quiet_random_digits : quiet random_digits.
Proof. done. Qed.

Create HintDb quiet discriminated.
#[export] Hint Resolve quiet_ret quiet_throw quiet_bind quiet_try_catch quiet_getItem
  quiet_setItem quiet_removeItem quiet_console_error quiet_random_digits : quiet.

(** ** Blocks that catch *)

Lemma caught_and_logged (body : Run unit) msg e :
  fst (try_catch body (fun err => console_error msg err) e) = Returned tt.
Proof.
  unfold try_catch. destruct (body e) as [[[] | err] e']; reflexivity.
Qed.

Lemma caught_with_default {A} (body : Run A) (d : A) e :
  exists a, fst (try_catch body (fun _ => ret d) e) = Returned a.
Proof.
  unfold try_catch. destruct (body e) as [[a | err] e']; eauto.
Qed.

Section ProviderFacts.

Variable JSON_stringify : jsval -> string.
Variable JSON_parse : string -> option jsval.

Lemma saveUsers_returns us e : fst (saveUsers JSON_stringify us e) = Returned tt.
Proof. apply caught_and_logged. Qed.

Lemma persistAuth_returns u t r e : fst (persistAuth JSON_stringify u t r e) = Returned tt.
Proof. apply caught_and_logged. Qed.

Lemma initUsers_returns e : exists v, fst (initUsers JSON_parse e) = Returned v.
Proof. apply caught_with_default. Qed.

Lemma initUser_returns e : exists v, fst (initUser JSON_parse e) = Returned v.
Proof. apply caught_with_default. Qed.

Lemma initToken_returns e : exists t, fst (initToken e) = Returned t.
Proof. apply caught_with_default. Qed.

Lemma quiet_parse raw : quiet (parse JSON_parse raw).
Proof. unfold parse. destruct (JSON_parse raw); auto with quiet. Qed.

Lemma quiet_saveUsers us : quiet (saveUsers JSON_stringify us).
Proof. unfold saveUsers. auto with quiet. Qed.

Lemma quiet_persistAuth u t r : quiet (persistAuth JSON_stringify u t r).
Proof. unfold persistAuth. destruct r; auto 10 with quiet. Qed.

Lemma quiet_getItem_or k : quiet (getItem_or k).
Proof.
  unfold getItem_or. apply quiet_bind; [auto with quiet |].
  intros l. destruct (truthy l); auto with quiet.
Qed.

Lemma quiet_initUsers : quiet (initUsers JSON_parse).
Proof.
  unfold initUsers. apply quiet_try_catch; [| auto with quiet].
  apply quiet_bind; [auto with quiet |]. intros raw.
  destruct (truthy raw); auto using quiet_parse with quiet.
Qed.

Lemma quiet_initUser : quiet (initUser JSON_parse).
Proof.
  unfold initUser. apply quiet_try_catch; [| auto with quiet].
  apply quiet_bind; [apply quiet_getItem_or |]. intros raw.
  destruct (truthy raw); auto using quiet_parse with quiet.
Qed.

Lemma quiet_initToken : quiet initToken.
Proof.
  unfold initToken. apply quiet_try_catch; [| auto with quiet].
  apply quiet_bind; [apply quiet_getItem_or |]. intros raw.
  destruct (truthy raw); auto with quiet.
Qed.

(** *** What each block may touch *)

Section Touch.

Variable K : Backend -> string -> Prop.
Variable P : Backend -> Call -> Prop.

Lemma stays_parse raw : stays K P (parse JSON_parse raw).
Proof. unfold parse. destruct (JSON_parse raw); auto with stays. Qed.

Lemma stays_getItem_or k : (forall b, P b (GetItem k)) -> stays K P (getItem_or k).
Proof.
  intros Hp. unfold getItem_or. apply stays_bind; [auto with stays |].
  intros l. destruct (truthy l); auto with stays.
Qed.

Lemma stays_initUsers : (forall b k, P b (GetItem k)) -> stays K P (initUsers JSON_parse).
Proof.
  intros Hp. unfold initUsers. apply stays_try_catch; [| auto with stays].
  apply stays_bind; [auto with stays |]. intros raw.
  destruct (truthy raw); auto using stays_parse with stays.
Qed.

Lemma stays_initUser : (forall b k, P b (GetItem k)) -> stays K P (initUser JSON_parse).
Proof.
  intros Hp. unfold initUser. apply stays_try_catch; [| auto with stays].
  apply stays_bind; [by apply stays_getItem_or |]. intros raw.
  destruct (truthy raw); auto using stays_parse with stays.
Qed.

Lemma stays_initToken : (forall b k, P b (GetItem k)) -> stays K P initToken.
Proof.
  intros Hp. unfold initToken. apply stays_try_catch; [| auto with stays].
  apply stays_bind; [by apply stays_getItem_or |]. intros raw.
  destruct (truthy raw); auto with stays.
Qed.

Lemma stays_saveUsers us :
  K LocalStorage LOCAL_USERS_KEY ->
  (forall v, P LocalStorage (SetItem LOCAL_USERS_KEY v)) ->
  stays K P (saveUsers JSON_stringify us).
Proof. intros Hk Hp. unfold saveUsers. auto with stays. Qed.

Lemma stays_persistAuth u t r :
  (forall b k, session_key k -> K b k) ->
  (forall b, P b (SetItem AUTH_USER_KEY (JSON_stringify u))) ->
  (forall b, P b (SetItem AUTH_TOKEN_KEY t)) ->
  (forall b k, session_key k -> P b (RemoveItem k)) ->
  stays K P (persistAuth JSON_stringify u t r).
Proof.
  intros Hk Hu Ht Hr. unfold persistAuth.
  assert (session_key AUTH_USER_KEY) by (by left).
  assert (session_key AUTH_TOKEN_KEY) by (by right).
  destruct r; auto 10 with stays.
Qed.

Lemma stays_logout :
  (forall b k, session_key k -> K b k) ->
  (forall b k, session_key k -> P b (RemoveItem k)) ->
  stays K P logout.
Proof.
  intros Hk Hr. unfold logout.
  assert (session_key AUTH_USER_KEY) by (by left).
  assert (session_key AUTH_TOKEN_KEY) by (by right).
  auto 12 with stays.
Qed.

End Touch.

End ProviderFacts.

(** ** The provider's operations *)

Lemma session_keys_differ : AUTH_USER_KEY <> AUTH_TOKEN_KEY.
Proof. discriminate. Qed.

Lemma registry_key_not_session : ~ session_key LOCAL_USERS_KEY.
Proof. intros [H | H]; discriminate H. Qed.

Lemma matches_spec (a : Account) uname pword :
  String.eqb (username a) uname && String.eqb (password a) pword = true <->
  username a = uname /\ password a = pword.
Proof. rewrite andb_true_iff, !String.eqb_eq. done. Qed.

Lemma find_None_iff {A} (f : A -> bool) (l : list A) :
  List.find f l = None <-> forall x, x ∈ l -> f x = false.
Proof.
  split.
  - intros H x Hx. apply (find_none f l H). by apply list_elem_of_In.
  - intros H. destruct (List.find f l) as [x |] eqn:E; [| done].
    apply find_some in E as [Hin Hf]. apply list_elem_of_In in Hin.
    rewrite (H x Hin) in Hf. discriminate.
Qed.

Lemma find_Some_elem {A} (f : A -> bool) (l : list A) x :
  List.find f l = Some x -> x ∈ l /\ f x = true.
Proof. intros E. apply find_some in E as [Hin Hf]. by rewrite list_elem_of_In. Qed.

Lemma existsb_username us uname :
  existsb (fun u => String.eqb (username u) uname) us = true <->
  exists a, a ∈ us /\ username a = uname.
Proof.
  rewrite existsb_exists. split; intros (a & Hin & Ha); exists a.
  - split; [by apply list_elem_of_In | by apply String.eqb_eq].
  - split; [by apply list_elem_of_In | by apply String.eqb_eq].
Qed.

Lemma falsy_spec s : falsy s = true <-> s = "".
Proof. apply String.eqb_eq. Qed.

Lemma fault_free_evolves K P w w' : evolves K P w w' -> fault_free w -> fault_free w'.
Proof.
  intros (Hl & Hs & _) [Fl Fs]. split; intros c m.
  - rewrite Hl. apply Fl.
  - rewrite Hs. apply Fs.
Qed.

Lemma absent_evolves K P b w w' :
  evolves K P w w' -> (forall k, session_key k -> ~ K b k) -> absent b w -> absent b w'.
Proof.
  intros (_ & _ & _ & Hk & _) Hn [Hu Ht]. split.
  - rewrite Hk; [done | apply Hn; by left].
  - rewrite Hk; [done | apply Hn; by right].
Qed.

Lemma present_evolves K P b w w' :
  evolves K P w w' -> (forall k, session_key k -> ~ K b k) -> present b w -> present b w'.
Proof.
  intros (_ & _ & _ & Hk & _) Hn [Hu Ht]. split.
  - rewrite Hk; [done | apply Hn; by left].
  - rewrite Hk; [done | apply Hn; by right].
Qed.

Lemma holds_pair_evolves K P b u t w w' :
  evolves K P w w' -> (forall k, session_key k -> ~ K b k) ->
  holds_pair b u t w -> holds_pair b u t w'.
Proof.
  intros (_ & _ & _ & Hk & _) Hn [Hu Ht]. split.
  - rewrite Hk; [done | apply Hn; by left].
  - rewrite Hk; [done | apply Hn; by right].
Qed.

Lemma holds_pair_present b u t w : holds_pair b u t w -> present b w.
Proof. intros [Hu Ht]. split; eauto. Qed.

Section Operations.

Variable JSON_stringify : jsval -> string.
Variable JSON_parse : string -> option jsval.

(** With no failing call, [persistAuth] writes the pair to the chosen
    backend and clears the other one. *)
Lemma persistAuth_places userObj tokenStr remember e :
  fault_free (world e) ->
  let w' := world (snd (persistAuth JSON_stringify userObj tokenStr remember e)) in
  holds_pair (chosen remember) (JSON_stringify userObj) tokenStr w' /\
  absent (other remember) w' /\ console w' = console (world e).
Proof.
  destruct e as [[[li lt] [si st] con jr rg dr] q]. intros [Hl Hs]. cbn in Hl, Hs.
  unfold reliable in *. cbn in Hl, Hs.
  unfold persistAuth, try_catch, setItem, removeItem, bind, storage_call, ret.
  destruct remember; cbn; rewrite ?Hl, ?Hs; cbn; rewrite ?Hl, ?Hs; cbn;
    rewrite ?Hl, ?Hs; cbn; rewrite ?Hl, ?Hs; cbn;
    unfold holds_pair, absent, stored; cbn; split_and!; by simplify_map_eq.
Qed.

Ltac storage_paths :=
  repeat match goal with
         | |- context [if ?b then _ else _] => destruct b eqn:?; cbn
         end.

(** The calls [persistAuth] makes and what it logs, whatever the areas
    do. *)
Lemma persistAuth_trace userObj tokenStr remember e :
  let calls := persistAuth_calls (JSON_stringify userObj) tokenStr remember in
  let w' := world (snd (persistAuth JSON_stringify userObj tokenStr remember e)) in
  journal w' = (journal (world e) ++ calls_made calls e)%list /\
  console w' = (console (world e) ++
                match first_failure calls e with
                | None => []
                | Some (b, call) => [("persistAuth error", DOMException b call)]
                end)%list.
Proof.
  destruct e as [[[li lt] [si st] con jr rg dr] q].
  unfold persistAuth_calls, calls_made, first_failure, persistAuth, try_catch, setItem,
    removeItem, bind, storage_call, ret, console_error, on_world.
  destruct remember; cbn; storage_paths; split; rewrite ?app_nil_r, <- ?app_assoc; reflexivity.
Qed.

(** When none of its calls throws, [persistAuth] leaves the pair in the
    chosen backend and none in the other one. *)
Lemma persistAuth_unfailing userObj tokenStr remember e :
  first_failure (persistAuth_calls (JSON_stringify userObj) tokenStr remember) e = None ->
  let w' := world (snd (persistAuth JSON_stringify userObj tokenStr remember e)) in
  holds_pair (chosen remember) (JSON_stringify userObj) tokenStr w' /\
  absent (other remember) w'.
Proof.
  destruct e as [[[li lt] [si st] con jr rg dr] q].
  unfold persistAuth_calls, first_failure, persistAuth, try_catch, setItem,
    removeItem, bind, storage_call, ret, console_error, on_world.
  destruct remember; cbn; storage_paths; intros H; try discriminate H;
    unfold holds_pair, absent, stored; cbn; split_and!; by simplify_map_eq.
Qed.

Lemma fault_free_first_failure userObj tokenStr remember e :
  fault_free (world e) ->
  first_failure (persistAuth_calls (JSON_stringify userObj) tokenStr remember) e = None.
Proof.
  destruct e as [[[li lt] [si st] con jr rg dr] q]. intros [Hl Hs]. cbn in Hl, Hs.
  unfold reliable in *. cbn in Hl, Hs.
  unfold persistAuth_calls, first_failure, storage_call.
  destruct remember; cbn; rewrite ?Hl, ?Hs; cbn; rewrite ?Hl, ?Hs; cbn;
    rewrite ?Hl, ?Hs; cbn; rewrite ?Hl, ?Hs; reflexivity.
Qed.

Lemma activate_returns a remember e :
  fst (activate JSON_stringify a remember e) = Returned ok.
Proof.
  unfold activate, bind, random_digits, setUser, setToken, ret. cbn.
  match goal with |- context [persistAuth _ ?u ?t ?r ?e0] =>
    pose proof (persistAuth_returns JSON_stringify u t r e0) as H;
    destruct (persistAuth JSON_stringify u t r e0) as [[[] | err] e1] end;
    [done | discriminate H].
Qed.

Lemma activate_unfold a remember e :
  activate JSON_stringify a remember e =
  (Returned ok,
   snd (persistAuth JSON_stringify (publicUser a)
          ("t_" ++ rng (world e) (draws (world e))) remember (after_draw e a))).
Proof.
  unfold activate, bind, random_digits, setUser, setToken, ret, after_draw. cbn.
  match goal with |- context [persistAuth _ ?u ?t ?r ?e0] =>
    pose proof (persistAuth_returns JSON_stringify u t r e0) as H;
    destruct (persistAuth JSON_stringify u t r e0) as [[[] | err] e1] end;
    [done | discriminate H].
Qed.

Lemma activate_queue a remember e :
  queue (snd (activate JSON_stringify a remember e)) =
  {| next_users := next_users (queue e);
     next_user := Some (publicUser a);
     next_token := Some (Some ("t_" ++ rng (world e) (draws (world e)))) |}.
Proof. rewrite activate_unfold. cbn. by rewrite quiet_persistAuth. Qed.

Lemma stays_activate K P a remember :
  (forall b k, session_key k -> K b k) ->
  (forall b, P b (SetItem AUTH_USER_KEY (JSON_stringify (publicUser a)))) ->
  (forall b t, P b (SetItem AUTH_TOKEN_KEY t)) ->
  (forall b k, session_key k -> P b (RemoveItem k)) ->
  stays K P (activate JSON_stringify a remember).
Proof.
  intros Hk Hu Ht Hr. unfold activate.
  apply stays_bind; [auto with stays |]. intros digits.
  apply stays_bind; [auto with stays |]. intros _.
  apply stays_bind; [auto with stays |]. intros _.
  apply stays_bind; [| auto with stays].
  by apply stays_persistAuth.
Qed.

Lemma activate_places a remember e :
  fault_free (world e) ->
  let w' := world (snd (activate JSON_stringify a remember e)) in
  holds_pair (chosen remember) (JSON_stringify (publicUser a))
    ("t_" ++ rng (world e) (draws (world e))) w' /\
  absent (other remember) w'.
Proof.
  intros Hf. rewrite activate_unfold. cbn [snd].
  destruct (persistAuth_places (publicUser a) ("t_" ++ rng (world e) (draws (world e)))
              remember (after_draw e a)) as (H1 & H2 & _); [exact Hf | done].
Qed.

(** The calls [activate] makes, what it logs, and where it leaves the
    pair when none of the calls throws. *)
Lemma activate_trace a remember e :
  let fakeToken := "t_" ++ rng (world e) (draws (world e)) in
  let calls := persistAuth_calls (JSON_stringify (publicUser a)) fakeToken remember in
  let w' := world (snd (activate JSON_stringify a remember e)) in
  journal w' = (journal (world e) ++ calls_made calls e)%list /\
  console w' = (console (world e) ++
                match first_failure calls e with
                | None => []
                | Some (b, call) => [("persistAuth error", DOMException b call)]
                end)%list /\
  (first_failure calls e = None ->
   holds_pair (chosen remember) (JSON_stringify (publicUser a)) fakeToken w' /\
   absent (other remember) w').
Proof.
  cbn zeta. rewrite activate_unfold. cbn [snd].
  destruct e as [[[li lt] [si st] con jr rg dr] q].
  unfold after_draw, persistAuth_calls, calls_made, first_failure, persistAuth, try_catch,
    setItem, removeItem, bind, storage_call, ret, console_error, on_world.
  cbn [world draws rng localStorage sessionStorage console journal queue].
  generalize (JSON_stringify (publicUser a)), ("t_" ++ rg dr). intros text tok.
  destruct remember; cbn; storage_paths;
    (split_and!;
     [ rewrite ?app_nil_r, <- ?app_assoc; reflexivity
     | rewrite ?app_nil_r; reflexivity
     | intros H; try discriminate H;
       unfold holds_pair, absent, stored; cbn; split_and!; by simplify_map_eq ]).
Qed.

(** [login] is a search followed by [activate]. *)
Lemma login_unfold us uname pword remember e :
  login JSON_stringify us uname pword remember e =
  match List.find (fun u => String.eqb (username u) uname && String.eqb (password u) pword) us with
  | None => (Returned (failure "Invalid credentials"), e)
  | Some found => activate JSON_stringify found remember e
  end.
Proof. unfold login. by destruct (List.find _ us). Qed.

Lemma logout_queue e :
  queue (snd (logout e)) =
  {| next_users := next_users (queue e); next_user := Some JNull; next_token := Some None |}.
Proof.
  set (rest := (removeItem SessionStorage AUTH_USER_KEY >>
                removeItem SessionStorage AUTH_TOKEN_KEY >>
                removeItem LocalStorage AUTH_USER_KEY >>
                removeItem LocalStorage AUTH_TOKEN_KEY)%run).
  assert (Hq : quiet rest) by (unfold rest; auto 10 with quiet).
  change (logout e) with
    (rest {| world := world e;
             queue := {| next_users := next_users (queue e); next_user := Some JNull;
                         next_token := Some None |} |}).
  by rewrite Hq.
Qed.

Lemma logout_clears e :
  removals_succeed (world e) ->
  fst (logout e) = Returned tt /\
  absent LocalStorage (world (snd (logout e))) /\
  absent SessionStorage (world (snd (logout e))).
Proof.
  destruct e as [[[li lt] [si st] con jr rg dr] q]. intros Hr.
  pose proof (fun k m => Hr LocalStorage k m) as Hl.
  pose proof (fun k m => Hr SessionStorage k m) as Hs. cbn in Hl, Hs.
  unfold logout, setUser, setToken, removeItem, bind, storage_call, ret.
  cbn; rewrite ?Hl, ?Hs; cbn; rewrite ?Hl, ?Hs; cbn;
    rewrite ?Hl, ?Hs; cbn; rewrite ?Hl, ?Hs; cbn.
  unfold absent, stored; cbn; split_and!; by simplify_map_eq.
Qed.

End Operations.

(** ** One event and the render that follows *)

Section Events.

Variable JSON_stringify : jsval -> string.
Variable JSON_parse : string -> option jsval.

Lemma handle_then {A B} (op : Run A) (f : A -> B) c :
  handle JSON_stringify (let* r := op in ret (f r)) c =
  (match fst (op (first_env c)) with
   | Returned a => Returned (f a)
   | Thrown err => Thrown err
   end,
   {| hooks := apply_updates (queue (snd (op (first_env c)))) (hooks c);
      browser := effects JSON_stringify (queue (snd (op (first_env c))))
                   (world (snd (op (first_env c)))) |}).
Proof.
  unfold handle, bind. fold (first_env c). by destruct (op (first_env c)) as [[a | err] e1].
Qed.

Lemma handle_nothing c :
  {| hooks := apply_updates no_updates (hooks c);
     browser := effects JSON_stringify no_updates (browser c) |} = c.
Proof. by destruct c as [[] ?]. Qed.

Lemma register_unfold us input remember e :
  register JSON_stringify us input remember e =
  if falsy (username input) || falsy (password input) then
    (Returned (failure "Provide username and password"), e)
  else if existsb (fun u => String.eqb (username u) (username input)) us then
    (Returned (failure "User already exists"), e)
  else
    activate JSON_stringify input remember
      {| world := world e;
         queue := {| next_users := Some (us ++ [input])%list; next_user := next_user (queue e);
                     next_token := next_token (queue e) |} |}.
Proof.
  unfold register. destruct (falsy (username input) || falsy (password input)); [done |].
  destruct (existsb _ us); [done |]. by destruct input.
Qed.

Lemma act_Register c input remember :
  act JSON_stringify (Register input remember) c =
  if falsy (username input) || falsy (password input) then
    (Returned (Some (failure "Provide username and password")), c)
  else if existsb (fun u => String.eqb (username u) (username input)) (users (hooks c)) then
    (Returned (Some (failure "User already exists")), c)
  else
    let us := (users (hooks c) ++ [input])%list in
    let e1 := snd (activate JSON_stringify input remember
                     {| world := browser c;
                        queue := {| next_users := Some us; next_user := None;
                                    next_token := None |} |}) in
    (Returned (Some ok),
     {| hooks := {| users := us; user := publicUser input;
                    token := Some ("t_" ++ rng (browser c) (draws (browser c))) |};
        browser := world (snd (saveUsers JSON_stringify us
                                 {| world := world e1; queue := no_updates |})) |}).
Proof.
  unfold act. rewrite handle_then, register_unfold.
  destruct (falsy (username input) || falsy (password input));
    [cbn [fst snd first_env world queue]; by rewrite handle_nothing |].
  destruct (existsb _ _);
    [cbn [fst snd first_env world queue]; by rewrite handle_nothing |].
  cbn [first_env world queue no_updates next_user next_token].
  rewrite activate_returns. unfold effects, apply_updates. rewrite activate_queue. done.
Qed.

Lemma act_Login c uname pword remember :
  act JSON_stringify (Login uname pword remember) c =
  match List.find (fun u => String.eqb (username u) uname && String.eqb (password u) pword)
          (users (hooks c)) with
  | None => (Returned (Some (failure "Invalid credentials")), c)
  | Some found =>
      (Returned (Some ok),
       {| hooks := {| users := users (hooks c); user := publicUser found;
                      token := Some ("t_" ++ rng (browser c) (draws (browser c))) |};
          browser := world (snd (activate JSON_stringify found remember (first_env c))) |})
  end.
Proof.
  unfold act. rewrite handle_then, login_unfold.
  destruct (List.find _ _) as [found |];
    [| cbn [fst snd first_env world queue]; by rewrite handle_nothing].
  rewrite activate_returns. unfold effects, apply_updates. rewrite activate_queue. done.
Qed.

Lemma act_Logout c :
  act JSON_stringify Logout c =
  (match fst (logout (first_env c)) with
   | Returned _ => Returned None
   | Thrown err => Thrown err
   end,
   {| hooks := {| users := users (hooks c); user := JNull; token := None |};
      browser := world (snd (logout (first_env c))) |}).
Proof.
  unfold act. rewrite (handle_then logout (fun _ => None)).
  unfold effects, apply_updates. by rewrite logout_queue.
Qed.

End Events.

(** ** Register, login, logout *)

Section Claims.

Variable JSON_stringify : jsval -> string.

(** C2 (as amended).  A register call with a non-empty username and a
    non-empty password, whose username is the username of a registered
    account, returns success false with the message User already exists,
    and leaves the provider and the browser as they were: the users
    sequence, the session state, every stored entry and the journal of
    storage calls. *)
Theorem register_duplicate_rejected (c : Component) (input : Account) (remember : bool) :
  username input <> "" ->
  password input <> "" ->
  (exists a, a ∈ users (hooks c) /\ username a = username input) ->
  act JSON_stringify (Register input remember) c =
  (Returned (Some (failure "User already exists")), c).
Proof.
  intros Hu Hp Hdup. rewrite act_Register.
  assert (falsy (username input) = false) as ->
    by (apply not_true_is_false; by rewrite falsy_spec).
  assert (falsy (password input) = false) as ->
    by (apply not_true_is_false; by rewrite falsy_spec).
  cbn [orb]. apply existsb_username in Hdup. by rewrite Hdup.
Qed.

(** C3 (as amended).  A register call whose username or password is the
    empty string returns success false with the message Provide username
    and password, requests no state update and makes no storage call, so
    that the provider and the browser are as they were; through the
    form, this is the case when the username field is empty after
    trimming or the password field is empty as typed. *)
Theorem register_requires_both_fields (remember : bool) :
  (forall us input e, username input = "" \/ password input = "" ->
     register JSON_stringify us input remember e =
     (Returned (failure "Provide username and password"), e)) /\
  (forall c input, username input = "" \/ password input = "" ->
     act JSON_stringify (Register input remember) c =
     (Returned (Some (failure "Provide username and password")), c)) /\
  (forall us f e, trim (rf_username f) = "" \/ rf_password f = "" ->
     RegisterForm_handleSubmit JSON_stringify us f e =
     (Returned {| rf_username := rf_username f; rf_password := rf_password f;
                  rf_name := rf_name f; rf_remember := rf_remember f;
                  rf_msg := Some "Provide username and password" |}, e)).
Proof.
  assert (Hempty : forall input, username input = "" \/ password input = "" ->
            falsy (username input) || falsy (password input) = true).
  { intros input H. apply orb_true_iff. by rewrite !falsy_spec. }
  assert (Hreg : forall us input b e, username input = "" \/ password input = "" ->
            register JSON_stringify us input b e =
            (Returned (failure "Provide username and password"), e)).
  { intros us input b e H. by rewrite register_unfold, Hempty. }
  split_and!.
  - intros us input e H. by apply Hreg.
  - intros c input H. by rewrite act_Register, Hempty.
  - intros us f e H. unfold RegisterForm_handleSubmit, bind. by rewrite Hreg.
Qed.

(** C4.  Login returns success false with the message Invalid
    credentials exactly when no registered account has both that
    username and that password.  When one has, login returns success
    true and activates the session of the first such account: the
    current user is its public projection; the token is t_ followed by
    the digits drawn, and is truthy; the storage calls made are the four
    of persistAuth for that user and that token, in order, up to the
    first one that throws, the first of them being the write of the
    serialised user to the backend chosen by remember; and when none of
    them throws, as in a browser whose storage never fails, the chosen
    backend holds the serialised user and the token under the session
    keys and the other backend holds neither key. *)
Theorem login_invalid_iff_no_match (c : Component) (uname pword : string) (remember : bool) :
  (fst (act JSON_stringify (Login uname pword remember) c) =
     Returned (Some (failure "Invalid credentials")) <->
   forall a, a ∈ users (hooks c) -> ~ (username a = uname /\ password a = pword)) /\
  ((exists a, a ∈ users (hooks c) /\ username a = uname /\ password a = pword) ->
   let c' := snd (act JSON_stringify (Login uname pword remember) c) in
   let fakeToken := "t_" ++ rng (browser c) (draws (browser c)) in
   fst (act JSON_stringify (Login uname pword remember) c) = Returned (Some ok) /\
   exists found,
     found ∈ users (hooks c) /\ username found = uname /\ password found = pword /\
     user (hooks c') = publicUser found /\
     isAuthenticated (token (hooks c')) = true /\
     List.find (fun u => String.eqb (username u) uname && String.eqb (password u) pword)
       (users (hooks c)) = Some found /\
     token (hooks c') = Some fakeToken /\
     let calls := persistAuth_calls (JSON_stringify (publicUser found)) fakeToken remember in
     journal (browser c') = (journal (browser c) ++ calls_made calls (first_env c))%list /\
     (exists rest,
        calls_made calls (first_env c) =
          (chosen remember, SetItem AUTH_USER_KEY (JSON_stringify (publicUser found))) :: rest) /\
     (first_failure calls (first_env c) = None ->
      holds_pair (chosen remember) (JSON_stringify (publicUser found)) fakeToken (browser c') /\
      absent (other remember) (browser c')) /\
     (fault_free (browser c) ->
      holds_pair (chosen remember) (JSON_stringify (publicUser found)) fakeToken (browser c') /\
      absent (other remember) (browser c'))).
Proof.
  rewrite act_Login.
  destruct (List.find _ _) as [found |] eqn:E.
  - pose proof E as Efind.
    apply find_Some_elem in E as [Hin Hm]. apply matches_spec in Hm as [Hu Hp].
    split; [split |].
    + discriminate.
    + intros H. destruct (H found Hin). done.
    + intros _. cbn zeta. cbn [fst snd hooks user token browser].
      split; [done |]. exists found.
      destruct (activate_trace JSON_stringify found remember (first_env c))
        as (Hj & _ & Hplace).
      cbn [first_env world] in Hj, Hplace.
      split_and!; try done.
      * unfold persistAuth_calls. cbn [calls_made].
        destruct (storage_call _ _ _) as [[r | err] e1]; eexists; reflexivity.
      * intros Hf. apply Hplace.
        by apply (fault_free_first_failure JSON_stringify _ _ _ (first_env c)).
  - split; [split |].
    + intros _ a Ha Hm. apply matches_spec in Hm.
      rewrite (proj1 (find_None_iff _ _) E a Ha) in Hm. discriminate.
    + done.
    + intros (a & Ha & Hm). apply (conj (proj1 Hm)) in Hm as Hm'.
      destruct Hm as [Hu Hp]. assert (Hb := proj2 (matches_spec a uname pword) (conj Hu Hp)).
      rewrite (proj1 (find_None_iff _ _) E a Ha) in Hb. discriminate.
Qed.

(** C5.  When the username and the password are non-empty and no
    registered account has the username, register succeeds, and after a
    logout, login with the same username and password succeeds, whatever
    the storage areas do. *)
Theorem register_logout_login (c : Component) (input : Account) (remember remember' : bool) :
  username input <> "" ->
  password input <> "" ->
  (forall a, a ∈ users (hooks c) -> username a <> username input) ->
  let c1 := snd (act JSON_stringify (Register input remember) c) in
  let c2 := snd (act JSON_stringify Logout c1) in
  fst (act JSON_stringify (Register input remember) c) = Returned (Some ok) /\
  fst (act JSON_stringify (Login (username input) (password input) remember') c2) =
    Returned (Some ok).
Proof.
  intros Hu Hp Hnew. rewrite act_Register.
  assert (falsy (username input) = false) as ->
    by (apply not_true_is_false; by rewrite falsy_spec).
  assert (falsy (password input) = false) as ->
    by (apply not_true_is_false; by rewrite falsy_spec).
  assert (existsb (fun u => String.eqb (username u) (username input)) (users (hooks c)) = false) as ->.
  { apply not_true_is_false. rewrite existsb_username. intros (a & Ha & Heq).
    by apply (Hnew a Ha). }
  cbn [orb]. cbn zeta. cbn [fst snd]. split; [done |].
  rewrite act_Logout, act_Login. cbn [snd hooks users].
  destruct (List.find _ _) as [found |] eqn:E; [done |].
  assert (Hin : input ∈ (users (hooks c) ++ [input])%list) by (apply elem_of_app; right; by left).
  pose proof (proj1 (find_None_iff _ _) E input Hin) as Hf. cbn in Hf.
  rewrite !String.eqb_refl in Hf. discriminate.
Qed.

(** C6 (as amended).  From every state, logout sets the current user and
    token to absent, so that isAuthenticated is false afterwards, and
    leaves the registry alone; when none of its removals throws, it
    completes without a result and the session pair is absent from both
    backends. *)
Theorem logout_clears_session (c : Component) :
  let c' := snd (act JSON_stringify Logout c) in
  user (hooks c') = JNull /\
  token (hooks c') = None /\
  isAuthenticated (token (hooks c')) = false /\
  users (hooks c') = users (hooks c) /\
  (removals_succeed (browser c) ->
   fst (act JSON_stringify Logout c) = Returned None /\
   absent LocalStorage (browser c') /\
   absent SessionStorage (browser c')).
Proof.
  rewrite act_Logout. cbn [fst snd hooks user token users browser].
  split_and!; try done.
  intros Hr. destruct (logout_clears (first_env c) Hr) as (-> & Hl & Hs). done.
Qed.

(** C9.  After a successful register or login, the current user is the
    object with the two properties username and name of the created or
    matched account, in that order; it has no password property; and
    every write of the session user key made by that call stores the
    serialisation of that same object, which the chosen backend holds
    when no storage call fails. *)
Theorem public_user_has_no_password (c : Component) (a : Action) :
  fst (act JSON_stringify a c) = Returned (Some ok) ->
  let c' := snd (act JSON_stringify a c) in
  exists acct,
    account_of a (users (hooks c)) = Some acct /\
    user (hooks c') = JObj [("username", JStr (username acct)); ("name", JStr (name acct))] /\
    own_keys (user (hooks c')) = ["username"; "name"] /\
    get_prop (user (hooks c')) "password" = None /\
    (exists new,
       journal (browser c') = (journal (browser c) ++ new)%list /\
       Forall (fun bc => forall v, bc.2 = SetItem AUTH_USER_KEY v ->
                           v = JSON_stringify (user (hooks c'))) new) /\
    (fault_free (browser c) ->
     stored (chosen (remembers a)) AUTH_USER_KEY (browser c') =
       Some (JSON_stringify (user (hooks c')))).
Proof.
  set (K := fun (b : Backend) (k : string) => True).
  destruct a as [input remember | uname pword remember |].
  - rewrite act_Register.
    destruct (falsy (username input) || falsy (password input)); [discriminate |].
    destruct (existsb _ _); [discriminate |].
    intros _. cbn zeta. cbn [snd hooks user browser]. exists input.
    split_and!; try done.
    + set (P := fun (b : Backend) (call : Call) =>
                  forall v, call = SetItem AUTH_USER_KEY v -> v = JSON_stringify (publicUser input)).
      match goal with |- context [saveUsers _ ?us ?e1] =>
        pose proof (stays_saveUsers JSON_stringify K P us) as H2; specialize (H2 I);
        match e1 with context [activate _ ?a ?r ?e0] =>
          pose proof (stays_activate JSON_stringify K P a r) as H1; specialize (H1 (fun _ _ _ => I));
          specialize (fun A B C => H1 A B C e0) end;
        specialize (fun A => H2 A e1) end.
      lapply H1; [clear H1; intros H1 | intros b v Hv; by inversion Hv].
      lapply H1; [clear H1; intros H1 | intros b t v Hv; by inversion Hv].
      lapply H1; [clear H1; intros H1 | intros b k _ v Hv; by inversion Hv].
      lapply H2; [clear H2; intros H2 | intros v0 v Hv; by inversion Hv].
      destruct (evolves_trans _ _ _ _ _ H1 H2) as (_ & _ & _ & _ & new & Hj & Hnew).
      exists new. split; [exact Hj | exact Hnew].
    + intros Hf.
      match goal with |- context [saveUsers _ ?us ?e1] =>
        pose proof (stays_saveUsers JSON_stringify
                      (fun b k => b = LocalStorage /\ k = LOCAL_USERS_KEY) (fun _ _ => True) us
                      (conj eq_refl eq_refl) (fun _ => I) e1) as H2;
        match e1 with context [activate _ ?a ?r ?e0] =>
          pose proof (activate_places JSON_stringify a r e0 Hf) as [H1 _] end end.
      eapply holds_pair_evolves in H1; [| exact H2 |].
      * apply H1.
      * intros k Hk [_ ->]. by apply registry_key_not_session.
  - rewrite act_Login. cbn [account_of].
    destruct (List.find _ _) as [found |]; [| discriminate].
    intros _. cbn zeta. cbn [snd hooks user browser]. exists found.
    split_and!; try done.
    + set (P := fun (b : Backend) (call : Call) =>
                  forall v, call = SetItem AUTH_USER_KEY v -> v = JSON_stringify (publicUser found)).
      pose proof (stays_activate JSON_stringify K P found remember) as H1.
      specialize (H1 (fun _ _ _ => I)).
      lapply H1; [clear H1; intros H1 | intros b v Hv; by inversion Hv].
      lapply H1; [clear H1; intros H1 | intros b t v Hv; by inversion Hv].
      lapply H1; [clear H1; intros H1 | intros b k _ v Hv; by inversion Hv].
      destruct (H1 (first_env c)) as (_ & _ & _ & _ & new & Hj & Hnew).
      exists new. split; [exact Hj | exact Hnew].
    + intros Hf. apply (activate_places JSON_stringify found remember (first_env c) Hf).
  - rewrite act_Logout. cbn [fst]. destruct (fst (logout _)); discriminate.
Qed.

(** C10.  A successful login leaves the users sequence as it was, makes
    no storage call on the registry key (every call it makes is on one
    of the two session keys), and leaves every stored entry other than
    the two session keys as it was, the registry entry of the durable
    backend among them. *)
Theorem login_leaves_registry (c : Component) (uname pword : string) (remember : bool) :
  fst (act JSON_stringify (Login uname pword remember) c) = Returned (Some ok) ->
  let c' := snd (act JSON_stringify (Login uname pword remember) c) in
  users (hooks c') = users (hooks c) /\
  stored LocalStorage LOCAL_USERS_KEY (browser c') =
    stored LocalStorage LOCAL_USERS_KEY (browser c) /\
  (forall b k, ~ session_key k -> stored b k (browser c') = stored b k (browser c)) /\
  exists new,
    journal (browser c') = (journal (browser c) ++ new)%list /\
    Forall (fun bc => session_key (call_key bc.2) /\ call_key bc.2 <> LOCAL_USERS_KEY) new.
Proof.
  rewrite act_Login. destruct (List.find _ _) as [found |]; [| discriminate].
  intros _. cbn zeta. cbn [snd hooks users browser].
  pose proof (stays_activate JSON_stringify (fun _ k => session_key k)
                (fun _ call => session_key (call_key call) /\ call_key call <> LOCAL_USERS_KEY)
                found remember) as H.
  lapply H; [clear H; intros H | done].
  lapply H; [clear H; intros H | intros b; split; [by left | discriminate]].
  lapply H; [clear H; intros H | intros b t; split; [by right | discriminate]].
  lapply H; [clear H; intros H |
    intros b k Hk; split; [done | intros Heq; cbn in Heq; subst k; by apply registry_key_not_session]].
  destruct (H (first_env c)) as (_ & _ & _ & Hk & new & Hj & Hnew).
  split_and!; try done.
  - apply Hk, registry_key_not_session.
  - by exists new.
Qed.

(** X1.  A login that matches no registered account leaves the provider
    and the browser exactly as they were: no state update, no storage
    call. *)
Theorem failed_login_changes_nothing (c : Component) (uname pword : string) (remember : bool) :
  (forall a, a ∈ users (hooks c) -> ~ (username a = uname /\ password a = pword)) ->
  act JSON_stringify (Login uname pword remember) c =
  (Returned (Some (failure "Invalid credentials")), c).
Proof.
  intros Hno. rewrite act_Login.
  destruct (List.find _ _) as [found |] eqn:E; [| done].
  apply find_Some_elem in E as [Hin Hm]. apply matches_spec in Hm.
  destruct (Hno found Hin Hm).
Qed.

(** X2.  Usernames stay unique: if no two registered accounts share a
    username, the same holds after any register, login or logout. *)
Theorem usernames_stay_unique (c : Component) (a : Action) :
  NoDup (username <$> users (hooks c)) ->
  NoDup (username <$> users (hooks (snd (act JSON_stringify a c)))).
Proof.
  intros Hnd. destruct a as [input remember | uname pword remember |].
  - rewrite act_Register.
    destruct (falsy (username input) || falsy (password input)); [done |].
    destruct (existsb _ _) eqn:E; [done |].
    cbn zeta. cbn [snd hooks users]. rewrite fmap_app. apply NoDup_app.
    split_and!; [done | | apply NoDup_singleton].
    intros u Hu Hin. apply list_elem_of_singleton in Hin. subst u.
    apply list_elem_of_fmap in Hu as (acct & Heq & Hacct).
    apply not_true_iff_false in E. apply E, existsb_username. by exists acct.
  - rewrite act_Login. by destruct (List.find _ _).
  - by rewrite act_Logout.
Qed.

(** X3.  The registry only grows: the users sequence before an action
    is a prefix of the one after it, and it grows by at most the account
    just registered. *)
Theorem registry_only_grows (c : Component) (a : Action) :
  users (hooks (snd (act JSON_stringify a c))) = users (hooks c) \/
  exists input remember,
    a = Register input remember /\
    users (hooks (snd (act JSON_stringify a c))) = (users (hooks c) ++ [input])%list.
Proof.
  destruct a as [input remember | uname pword remember |].
  - rewrite act_Register.
    destruct (falsy (username input) || falsy (password input)); [by left |].
    destruct (existsb _ _); [by left |]. right. by exists input, remember.
  - left. rewrite act_Login. by destruct (List.find _ _).
  - left. by rewrite act_Logout.
Qed.

End Claims.

(** ** Restoring a session *)

Section Restore.

Variable JSON_stringify : jsval -> string.
Variable JSON_parse : string -> option jsval.

Lemma getItem_or_reads k e :
  reads_succeed (world e) ->
  fst (getItem_or k e) =
    Returned (if truthy (stored LocalStorage k (world e))
              then stored LocalStorage k (world e)
              else stored SessionStorage k (world e)) /\
  (forall b k', stored b k' (world (snd (getItem_or k e))) = stored b k' (world e)).
Proof.
  destruct e as [[[li lt] [si st] con jr rg dr] q]. intros Hr.
  pose proof (fun k m => Hr LocalStorage k m) as Hl.
  pose proof (fun k m => Hr SessionStorage k m) as Hs. cbn in Hl, Hs.
  unfold getItem_or, getItem, bind, storage_call, ret, stored. cbn. rewrite Hl. cbn.
  destruct (truthy (li !! k)); cbn; [split; [done | by intros []] |].
  rewrite Hs. cbn. split; [done | by intros []].
Qed.

Lemma initToken_reads e :
  reads_succeed (world e) ->
  fst (initToken e) =
    Returned (if truthy (stored LocalStorage AUTH_TOKEN_KEY (world e))
              then stored LocalStorage AUTH_TOKEN_KEY (world e)
              else if truthy (stored SessionStorage AUTH_TOKEN_KEY (world e))
                   then stored SessionStorage AUTH_TOKEN_KEY (world e)
                   else None).
Proof.
  intros Hr. destruct (getItem_or_reads AUTH_TOKEN_KEY e Hr) as [Hg _].
  unfold initToken, try_catch, bind.
  destruct (getItem_or AUTH_TOKEN_KEY e) as [o e1]. cbn [fst] in Hg. subst o.
  destruct (truthy (stored LocalStorage AUTH_TOKEN_KEY (world e))) eqn:El; rewrite ?El; [done |].
  by destruct (truthy (stored SessionStorage AUTH_TOKEN_KEY (world e))).
Qed.

Lemma initUser_reads e :
  reads_succeed (world e) ->
  fst (initUser JSON_parse e) =
    Returned (let raw := if truthy (stored LocalStorage AUTH_USER_KEY (world e))
                         then stored LocalStorage AUTH_USER_KEY (world e)
                         else stored SessionStorage AUTH_USER_KEY (world e) in
              if truthy raw then default JNull (JSON_parse (default "" raw)) else JNull).
Proof.
  intros Hr. destruct (getItem_or_reads AUTH_USER_KEY e Hr) as [Hg _].
  unfold initUser, try_catch, bind.
  destruct (getItem_or AUTH_USER_KEY e) as [o e1]. cbn [fst] in Hg. subst o. cbn zeta.
  destruct (truthy (if truthy _ then _ else _)); [| done].
  unfold parse. by destruct (JSON_parse _).
Qed.

(** With no token stored in either backend, no token is restored,
    whether the reads throw or not. *)
Lemma initToken_absent e :
  stored LocalStorage AUTH_TOKEN_KEY (world e) = None ->
  stored SessionStorage AUTH_TOKEN_KEY (world e) = None ->
  fst (initToken e) = Returned None.
Proof.
  destruct e as [[[li lt] [si st] con jr rg dr] q]. unfold stored. cbn. intros Hl Hs.
  unfold initToken, try_catch, getItem_or, getItem, bind, storage_call, ret. cbn.
  destruct (lt _ _); cbn; [done |]. rewrite Hl. cbn.
  destruct (st _ _); cbn; [done |]. by rewrite Hs.
Qed.

(** C8 (as amended).  Neither initial value can throw, whatever the two
    backends hold.  When the reads succeed, the token is the one of the
    durable backend if that is a non-empty string, and otherwise (absent
    or empty) the one of the session-scoped backend if that is a
    non-empty string, and otherwise absent; the user is parsed from the
    text of the durable backend if that is non-empty, and otherwise from
    the text of the session-scoped backend, and is null when that text
    is absent, empty or not JSON. *)
Theorem restore_prefers_durable (e : Env) :
  (exists v, fst (initUser JSON_parse e) = Returned v) /\
  (exists t, fst (initToken e) = Returned t) /\
  (reads_succeed (world e) ->
   (forall t, stored LocalStorage AUTH_TOKEN_KEY (world e) = Some t -> t <> "" ->
      fst (initToken e) = Returned (Some t)) /\
   (truthy (stored LocalStorage AUTH_TOKEN_KEY (world e)) = false ->
      fst (initToken e) =
        Returned (if truthy (stored SessionStorage AUTH_TOKEN_KEY (world e))
                  then stored SessionStorage AUTH_TOKEN_KEY (world e) else None)) /\
   (forall raw, stored LocalStorage AUTH_USER_KEY (world e) = Some raw -> raw <> "" ->
      fst (initUser JSON_parse e) = Returned (default JNull (JSON_parse raw))) /\
   (truthy (stored LocalStorage AUTH_USER_KEY (world e)) = false ->
      fst (initUser JSON_parse e) =
        Returned (match stored SessionStorage AUTH_USER_KEY (world e) with
                  | Some raw => if falsy raw then JNull else default JNull (JSON_parse raw)
                  | None => JNull
                  end))).
Proof.
  split; [apply initUser_returns |]. split; [apply initToken_returns |].
  intros Hr. rewrite initToken_reads, initUser_reads by done.
  assert (Ht : forall s, s <> "" -> falsy s = false)
    by (intros s Hs; apply not_true_is_false; by rewrite falsy_spec).
  split_and!.
  - intros t -> Hne. cbn [truthy]. by rewrite (Ht t Hne).
  - by intros ->.
  - intros raw -> Hne. cbn zeta. cbn [truthy]. rewrite (Ht raw Hne). cbn [negb truthy].
    by rewrite (Ht raw Hne).
  - intros ->. cbn zeta. destruct (stored SessionStorage _ _) as [raw |]; [| done].
    cbn. by destruct (falsy raw).
Qed.

End Restore.

(** ** The session pair lives in one backend *)

Section Invariant.

Variable JSON_stringify : jsval -> string.
Variable JSON_parse : string -> option jsval.

Lemma registry_only_not_session b k : session_key k -> ~ registry_only b k.
Proof. intros Hk [_ ->]. by apply registry_key_not_session. Qed.

Lemma other_opposite remember : other remember = opposite (chosen remember).
Proof. by destruct remember. Qed.

Lemma session_in_exactly_one b c : session_in b c -> in_exactly_one (browser c).
Proof. intros (Hp & Ha & _). destruct b; [by left | by right]. Qed.

Lemma act_success_places c a :
  fault_free (browser c) ->
  fst (act JSON_stringify a c) = Returned (Some ok) ->
  let c' := snd (act JSON_stringify a c) in
  exists t,
    token (hooks c') = Some t /\
    holds_pair (chosen (remembers a)) (JSON_stringify (user (hooks c'))) t (browser c') /\
    absent (other (remembers a)) (browser c').
Proof.
  intros Hf. destruct a as [input remember | uname pword remember |].
  - rewrite act_Register.
    destruct (falsy (username input) || falsy (password input)); [discriminate |].
    destruct (existsb _ _); [discriminate |].
    intros _. cbn zeta. cbn [snd hooks user token browser remembers].
    eexists. split; [reflexivity |].
    match goal with |- context [saveUsers _ ?us ?e1] =>
      pose proof (stays_saveUsers JSON_stringify registry_only any_call us
                    (conj eq_refl eq_refl) (fun _ => I) e1) as H2;
      match e1 with context [activate _ ?a ?r ?e0] =>
        pose proof (activate_places JSON_stringify a r e0 Hf) as [H1 H1'] end end.
    split.
    + eapply holds_pair_evolves; [exact H2 | apply registry_only_not_session | exact H1].
    + eapply absent_evolves; [exact H2 | apply registry_only_not_session | exact H1'].
  - rewrite act_Login.
    destruct (List.find _ _) as [found |]; [| discriminate].
    intros _. cbn zeta. cbn [snd hooks user token browser remembers].
    eexists. split; [reflexivity |].
    apply (activate_places JSON_stringify found remember (first_env c) Hf).
  - rewrite act_Logout. cbn [fst]. destruct (fst (logout _)); discriminate.
Qed.

Lemma act_evolves a c :
  evolves app_keys any_call (browser c) (browser (snd (act JSON_stringify a c))).
Proof.
  assert (Ha : forall acct r, stays app_keys any_call (activate JSON_stringify acct r)).
  { intros. apply stays_activate; try done. intros b k Hk. by left. }
  assert (Hs : forall us, stays app_keys any_call (saveUsers JSON_stringify us)).
  { intros. apply stays_saveUsers; [| done]. by right. }
  destruct a as [input remember | uname pword remember |].
  - rewrite act_Register.
    destruct (falsy (username input) || falsy (password input)); [apply evolves_refl |].
    destruct (existsb _ _); [apply evolves_refl |].
    cbn zeta. cbn [snd browser].
    eapply evolves_trans; [| apply Hs]. apply Ha.
  - rewrite act_Login.
    destruct (List.find _ _) as [found |]; [| apply evolves_refl].
    cbn [snd browser]. apply (Ha found remember (first_env c)).
  - rewrite act_Logout. cbn [snd browser].
    apply (stays_logout app_keys any_call); [| done]. intros b k Hk. by left.
Qed.

Lemma act_outcome a c :
  fst (act JSON_stringify a c) = Returned (Some ok) \/
  snd (act JSON_stringify a c) = c \/
  a = Logout.
Proof.
  destruct a as [input remember | uname pword remember |]; [| | by right; right].
  - rewrite act_Register.
    destruct (falsy (username input) || falsy (password input)); [by right; left |].
    destruct (existsb _ _); [by right; left | by left].
  - rewrite act_Login.
    destruct (List.find _ _) as [found |]; [by left | by right; left].
Qed.

Lemma fault_free_removals w : fault_free w -> removals_succeed w.
Proof. intros [Hl Hs] [] k m; [apply Hl | apply Hs]. Qed.

Lemma fault_free_reads w : fault_free w -> reads_succeed w.
Proof. intros [Hl Hs] [] k m; [apply Hl | apply Hs]. Qed.

Lemma act_settled a c :
  fault_free (browser c) -> settled c -> settled (snd (act JSON_stringify a c)).
Proof.
  intros Hf Hc. destruct (act_outcome a c) as [Hok | [Hsame | ->]].
  - destruct (act_success_places c a Hf Hok) as (t & Ht & Hp & Ha).
    left. exists (chosen (remembers a)). split_and!.
    + by eapply holds_pair_present.
    + by rewrite <- other_opposite.
    + intros t' Ht'. rewrite Ht in Ht'. injection Ht' as <-. apply Hp.
  - by rewrite Hsame.
  - right. rewrite act_Logout. cbn [snd hooks token browser].
    destruct (logout_clears (first_env c) (fault_free_removals _ Hf)) as (_ & Hl & Hs).
    done.
Qed.

Lemma mount_evolves w c :
  mount JSON_stringify JSON_parse w = Some c ->
  evolves registry_only any_call w (browser c) /\
  (reads_succeed w ->
   token (hooks c) =
     if truthy (stored LocalStorage AUTH_TOKEN_KEY w)
     then stored LocalStorage AUTH_TOKEN_KEY w
     else if truthy (stored SessionStorage AUTH_TOKEN_KEY w)
          then stored SessionStorage AUTH_TOKEN_KEY w
          else None).
Proof.
  unfold mount.
  set (e0 := {| world := w; queue := no_updates |}).
  pose proof (stays_initUsers JSON_parse registry_only any_call (fun _ _ => I) e0) as H1.
  set (r1 := initUsers JSON_parse e0) in *.
  pose proof (stays_initUser JSON_parse registry_only any_call (fun _ _ => I) (snd r1)) as H2.
  set (r2 := initUser JSON_parse (snd r1)) in *.
  pose proof (stays_initToken registry_only any_call (fun _ _ => I) (snd r2)) as H3.
  pose proof (initToken_reads (snd r2)) as Ht.
  set (r3 := initToken (snd r2)) in *.
  cbn zeta.
  destruct (fst r1) as [ju |]; [| done]. destruct (fst r2) as [v |]; [| done].
  destruct (fst r3) as [t |] eqn:E3; [| done].
  destruct (as_accounts ju) as [us |]; [| done].
  intros [= <-]. cbn [browser hooks token].
  pose proof (stays_saveUsers JSON_stringify registry_only any_call us
                (conj eq_refl eq_refl) (fun _ => I) (snd r3)) as H4.
  pose proof (evolves_trans _ _ _ _ _ H1 H2) as H12. cbn [world e0] in H12.
  split.
  - eapply evolves_trans; [| exact H4]. eapply evolves_trans; [exact H12 | exact H3].
  - intros Hr. destruct H12 as (Hl & Hs & _ & Hk & _).
    lapply Ht.
    + rewrite !Hk by (apply registry_only_not_session; by right). congruence.
    + intros [] k m; cbn [area]; [rewrite Hl; apply (Hr LocalStorage k m) | rewrite Hs; apply (Hr SessionStorage k m)].
Qed.

Lemma mount_settled w c :
  mount JSON_stringify JSON_parse w = Some c ->
  reads_succeed w ->
  (exists b, present b w /\ absent (opposite b) w) \/
  (absent LocalStorage w /\ absent SessionStorage w) ->
  settled c.
Proof.
  intros Hm Hr Hw. destruct (mount_evolves w c Hm) as [He Ht]. specialize (Ht Hr).
  assert (Hp : forall b, present b w -> present b (browser c)).
  { intros b. eapply present_evolves; [exact He | intros; by apply registry_only_not_session]. }
  assert (Ha : forall b, absent b w -> absent b (browser c)).
  { intros b. eapply absent_evolves; [exact He | intros; by apply registry_only_not_session]. }
  assert (Hk : forall b, stored b AUTH_TOKEN_KEY (browser c) = stored b AUTH_TOKEN_KEY w).
  { intros b. destruct He as (_ & _ & _ & Hk & _). apply Hk.
    apply registry_only_not_session. by right. }
  destruct Hw as [(b & H1 & H2) | [H1 H2]].
  - left. exists b. split_and!; [auto | auto |].
    intros t Htok. rewrite Hk. rewrite Ht in Htok.
    destruct b; cbn [opposite] in H2.
    + rewrite (proj2 H2) in Htok. cbn [truthy] in Htok.
      by destruct (truthy (stored LocalStorage AUTH_TOKEN_KEY w)).
    + rewrite (proj2 H2) in Htok. cbn [truthy] in Htok.
      by destruct (truthy (stored SessionStorage AUTH_TOKEN_KEY w)).
  - right. split_and!; [auto | auto |].
    by rewrite Ht, (proj2 H1), (proj2 H2).
Qed.

Lemma settled_stored c :
  settled c ->
  (exists b, present b (browser c) /\ absent (opposite b) (browser c)) \/
  (absent LocalStorage (browser c) /\ absent SessionStorage (browser c)).
Proof.
  intros [(b & H1 & H2 & _) | (H1 & H2 & _)]; [left; by exists b | by right].
Qed.

Lemma close_tab_spec w :
  fault_free w ->
  (exists b, present b w /\ absent (opposite b) w) \/
  (absent LocalStorage w /\ absent SessionStorage w) ->
  fault_free (close_tab w) /\
  ((exists b, present b (close_tab w) /\ absent (opposite b) (close_tab w)) \/
   (absent LocalStorage (close_tab w) /\ absent SessionStorage (close_tab w))).
Proof.
  intros [Fl Fs] Hw. split; [by split |].
  assert (Hs : absent SessionStorage (close_tab w)) by (split; apply lookup_empty).
  destruct Hw as [([] & H1 & H2) | [H1 H2]].
  - left. exists LocalStorage. by split.
  - right. by split.
  - right. by split.
Qed.

Lemma step_settled c c' :
  step JSON_stringify JSON_parse c c' ->
  fault_free (browser c) -> settled c ->
  fault_free (browser c') /\ settled c'.
Proof.
  intros Hstep Hf Hc. destruct Hstep as [a c | c c' Hm | c c' Hm].
  - split; [| by apply act_settled].
    eapply fault_free_evolves; [apply act_evolves | exact Hf].
  - split.
    + eapply fault_free_evolves; [apply (mount_evolves _ _ Hm) | exact Hf].
    + eapply mount_settled; [exact Hm | by apply fault_free_reads | by apply settled_stored].
  - destruct (close_tab_spec (browser c) Hf (settled_stored c Hc)) as [Hf' Hw'].
    split.
    + eapply fault_free_evolves; [apply (mount_evolves _ _ Hm) | exact Hf'].
    + eapply mount_settled; [exact Hm | by apply fault_free_reads | exact Hw'].
Qed.

Lemma reachable_settled w0 c :
  pristine w0 -> fault_free w0 ->
  reachable JSON_stringify JSON_parse w0 c ->
  fault_free (browser c) /\ settled c.
Proof.
  intros [Pl Ps] Hf Hr. induction Hr as [c Hm | c c' Hr IH Hstep].
  - split.
    + eapply fault_free_evolves; [apply (mount_evolves _ _ Hm) | exact Hf].
    + eapply mount_settled; [exact Hm | by apply fault_free_reads | by right].
  - destruct IH as [Hf' Hc]. by eapply step_settled.
Qed.

(** C1 (as amended).  When no storage call fails: a call of persistAuth
    leaves the given user text and token in the durable backend and
    neither key in the session-scoped backend when remember is true, and
    the reverse when it is false; a successful register or login leaves
    the serialisation of the current user and the current token there;
    and in every state a single tab reaches from a first visit with no
    session pair stored, through register, login, logout, reloads and
    reopening in a new tab, an authenticated provider has both session
    keys in exactly one backend, its token among them, and neither key
    in the other backend. *)
Theorem session_pair_in_one_backend :
  (forall userObj tokenStr remember e,
     fault_free (world e) ->
     let w' := world (snd (persistAuth JSON_stringify userObj tokenStr remember e)) in
     holds_pair (chosen remember) (JSON_stringify userObj) tokenStr w' /\
     absent (other remember) w') /\
  (forall c a,
     fault_free (browser c) ->
     fst (act JSON_stringify a c) = Returned (Some ok) ->
     let c' := snd (act JSON_stringify a c) in
     exists t,
       token (hooks c') = Some t /\
       holds_pair (chosen (remembers a)) (JSON_stringify (user (hooks c'))) t (browser c') /\
       absent (other (remembers a)) (browser c')) /\
  (forall w0 c,
     pristine w0 -> fault_free w0 ->
     reachable JSON_stringify JSON_parse w0 c ->
     isAuthenticated (token (hooks c)) = true ->
     in_exactly_one (browser c) /\
     exists b,
       present b (browser c) /\ absent (opposite b) (browser c) /\
       stored b AUTH_TOKEN_KEY (browser c) = token (hooks c)).
Proof.
  split_and!.
  - intros userObj tokenStr remember e Hf.
    destruct (persistAuth_places JSON_stringify userObj tokenStr remember e Hf) as (H1 & H2 & _).
    done.
  - apply act_success_places.
  - intros w0 c Hp Hf Hr Hauth.
    destruct (reachable_settled w0 c Hp Hf Hr) as [_ [(b & Hb) | (_ & _ & Ht)]].
    + split; [by eapply session_in_exactly_one |]. exists b.
      destruct Hb as (H1 & H2 & H3). split_and!; try done.
      destruct (token (hooks c)) as [t |]; [by apply H3 | discriminate].
    + rewrite Ht in Hauth. discriminate.
Qed.

End Invariant.

(** ** Examples: the claims at concrete states *)

Import Sample Examples.

Lemma never_fault_free w :
  throws (localStorage w) = never -> throws (sessionStorage w) = never -> fault_free w.
Proof. intros Hl Hs. split; intros c m; [by rewrite Hl | by rewrite Hs]. Qed.

(** C1, as stated, fails where storage fails: after a successful
    register with remember-me on in a browser whose durable area is
    full, the provider is authenticated and the session pair is in
    neither backend. *)
Lemma activation_on_full_storage :
  pristine (blank full never) /\
  reachable stringify parse (blank full never) signed_in_full /\
  fst (act stringify (Register alice true) (opened full never)) = Returned (Some ok) /\
  isAuthenticated (token (hooks signed_in_full)) = true /\
  stored LocalStorage AUTH_USER_KEY (browser signed_in_full) = None /\
  stored LocalStorage AUTH_TOKEN_KEY (browser signed_in_full) = None /\
  stored SessionStorage AUTH_USER_KEY (browser signed_in_full) = None /\
  stored SessionStorage AUTH_TOKEN_KEY (browser signed_in_full) = None.
Proof.
  split; [by repeat split |]. split.
  { eapply reach_step; [apply reach_mount | apply step_act]. vm_compute. reflexivity. }
  split_and!; vm_compute; reflexivity.
Qed.

Lemma session_pair_in_one_backend_witness :
  pristine (blank never never) /\
  fault_free (blank never never) /\
  reachable stringify parse (blank never never) signed_in /\
  isAuthenticated (token (hooks signed_in)) = true /\
  in_exactly_one (browser signed_in) /\
  exists b,
    present b (browser signed_in) /\ absent (opposite b) (browser signed_in) /\
    stored b AUTH_TOKEN_KEY (browser signed_in) = token (hooks signed_in).
Proof.
  assert (Hp : pristine (blank never never)) by (by repeat split).
  assert (Hf : fault_free (blank never never)) by (by apply never_fault_free).
  assert (Hr : reachable stringify parse (blank never never) signed_in).
  { eapply reach_step; [apply reach_mount | apply step_act]. vm_compute. reflexivity. }
  assert (Ha : isAuthenticated (token (hooks signed_in)) = true) by (vm_compute; reflexivity).
  exact (conj Hp (conj Hf (conj Hr (conj Ha
           (proj2 (proj2 (session_pair_in_one_backend stringify parse))
              (blank never never) signed_in Hp Hf Hr Ha))))).
Defined.

(** C2, as stated, fails when the password is empty: the username is
    taken, and the message is the one of the empty-field check. *)
Lemma duplicate_with_empty_password :
  users (hooks signed_in) = [alice] /\
  fst (act stringify
         (Register {| username := "alice"; password := ""; name := "Alice2" |} false)
         signed_in) =
    Returned (Some (failure "Provide username and password")).
Proof. split; vm_compute; reflexivity. Qed.

Lemma register_duplicate_rejected_witness :
  username alice2 <> "" /\
  password alice2 <> "" /\
  (exists a, a ∈ users (hooks signed_in) /\ username a = username alice2) /\
  act stringify (Register alice2 false) signed_in =
    (Returned (Some (failure "User already exists")), signed_in).
Proof.
  assert (H1 : username alice2 <> "") by discriminate.
  assert (H2 : password alice2 <> "") by discriminate.
  assert (H3 : exists a, a ∈ users (hooks signed_in) /\ username a = username alice2).
  { exists alice. split; [vm_compute; left | reflexivity]. }
  exact (conj H1 (conj H2 (conj H3
           (register_duplicate_rejected stringify signed_in alice2 false H1 H2 H3)))).
Defined.

(** C3, as stated, fails for a password of one space: it is empty after
    trimming, and register succeeds and writes to storage. *)
Lemma blank_password_is_accepted :
  trim (password bob) = "" /\
  fst (act stringify (Register bob false) (opened never never)) = Returned (Some ok) /\
  users (hooks (snd (act stringify (Register bob false) (opened never never)))) = [bob] /\
  stored LocalStorage LOCAL_USERS_KEY
    (browser (snd (act stringify (Register bob false) (opened never never)))) =
    Some (stringify (JArr [account_object bob])).
Proof. split_and!; vm_compute; reflexivity. Qed.

Lemma register_requires_both_fields_witness :
  act stringify (Register {| username := "carol"; password := ""; name := "" |} true)
    signed_in =
  (Returned (Some (failure "Provide username and password")), signed_in).
Proof.
  exact (proj1 (proj2 (register_requires_both_fields stringify true)) signed_in
           {| username := "carol"; password := ""; name := "" |} (or_intror eq_refl)).
Defined.

Lemma login_invalid_iff_no_match_witness :
  fst (act stringify (Login "alice" "pw2" false) signed_in) =
    Returned (Some (failure "Invalid credentials")) /\
  fst (act stringify (Login "alice" "pw1" false) signed_in) = Returned (Some ok) /\
  token (hooks (snd (act stringify (Login "alice" "pw1" false) signed_in))) = Some "t_xx" /\
  holds_pair SessionStorage (stringify (publicUser alice)) "t_xx"
    (browser (snd (act stringify (Login "alice" "pw1" false) signed_in))) /\
  absent LocalStorage (browser (snd (act stringify (Login "alice" "pw1" false) signed_in))).
Proof.
  assert (Hno : forall a, a ∈ users (hooks signed_in) ->
                          ~ (username a = "alice" /\ password a = "pw2")).
  { intros a Ha [_ Hp]. vm_compute in Ha. apply list_elem_of_singleton in Ha. subst a.
    discriminate Hp. }
  assert (Hex : exists a, a ∈ users (hooks signed_in) /\
                          username a = "alice" /\ password a = "pw1").
  { exists alice. split_and!; [| reflexivity ..]. vm_compute. apply list_elem_of_here. }
  assert (Hf : fault_free (browser signed_in)) by (by apply never_fault_free).
  destruct (proj2 (login_invalid_iff_no_match stringify signed_in "alice" "pw1" false) Hex)
    as (Hok & found & _ & _ & _ & _ & _ & Hfind & Htok & _ & _ & _ & Hplace).
  vm_compute in Hfind. injection Hfind as <-.
  exact (conj (proj2 (proj1 (login_invalid_iff_no_match stringify signed_in "alice" "pw2"
                               false)) Hno)
           (conj Hok (conj Htok (Hplace Hf)))).
Defined.

Lemma register_logout_login_witness :
  fst (act stringify (Register alice true) (opened never never)) = Returned (Some ok) /\
  fst (act stringify (Login "alice" "pw1" false)
         (snd (act stringify Logout signed_in))) = Returned (Some ok).
Proof.
  apply (register_logout_login stringify (opened never never) alice true false).
  - discriminate.
  - discriminate.
  - intros a Ha. vm_compute in Ha. inversion Ha.
Defined.

(** C6, as stated, fails when access to storage is denied: logout
    throws at its first removal and the durable backend keeps the pair. *)
Lemma logout_throws_when_denied :
  fst (act stringify Logout locked_out) =
    Thrown (DOMException SessionStorage (RemoveItem AUTH_USER_KEY)) /\
  stored LocalStorage AUTH_USER_KEY (browser (snd (act stringify Logout locked_out))) =
    Some (stringify (publicUser alice)) /\
  stored LocalStorage AUTH_TOKEN_KEY (browser (snd (act stringify Logout locked_out))) =
    Some "t_old".
Proof. split_and!; vm_compute; reflexivity. Qed.

Lemma logout_clears_session_witness :
  removals_succeed (browser signed_in) /\
  isAuthenticated (token (hooks signed_in)) = true /\
  present LocalStorage (browser signed_in) /\
  fst (act stringify Logout signed_in) = Returned None /\
  isAuthenticated (token (hooks (snd (act stringify Logout signed_in)))) = false /\
  absent LocalStorage (browser (snd (act stringify Logout signed_in))) /\
  absent SessionStorage (browser (snd (act stringify Logout signed_in))).
Proof.
  assert (Hr : removals_succeed (browser signed_in)) by (intros [] k m; reflexivity).
  assert (Ha : isAuthenticated (token (hooks signed_in)) = true) by (vm_compute; reflexivity).
  assert (Hp : present LocalStorage (browser signed_in)) by (split; vm_compute; eauto).
  pose proof (logout_clears_session stringify signed_in) as (_ & _ & Hi & _ & H).
  destruct (H Hr) as (Ho & Hl & Hs).
  exact (conj Hr (conj Ha (conj Hp (conj Ho (conj Hi (conj Hl Hs)))))).
Defined.

(** C7 fails in [logout]: the effect that saves the registry,
    persistAuth and the three initial values catch what storage throws
    (persistAuth logs it), and logout does not: in a browser that denies
    access to storage, the exception of its first removal leaves the
    handler and nothing is logged. *)
Theorem logout_lets_storage_errors_escape :
  (forall JSON_stringify JSON_parse us u t r e,
     fst (saveUsers JSON_stringify us e) = Returned tt /\
     fst (persistAuth JSON_stringify u t r e) = Returned tt /\
     (exists v, fst (initUsers JSON_parse e) = Returned v) /\
     (exists v, fst (initUser JSON_parse e) = Returned v) /\
     (exists v, fst (initToken e) = Returned v)) /\
  console (world (snd (persistAuth stringify (publicUser alice) "t_new" true
                         (first_env locked_out)))) =
    [("persistAuth error",
      DOMException LocalStorage (SetItem AUTH_USER_KEY (stringify (publicUser alice))))] /\
  fst (logout (first_env locked_out)) =
    Thrown (DOMException SessionStorage (RemoveItem AUTH_USER_KEY)) /\
  fst (act stringify Logout locked_out) =
    Thrown (DOMException SessionStorage (RemoveItem AUTH_USER_KEY)) /\
  console (browser (snd (act stringify Logout locked_out))) = [] /\
  journal (browser (snd (act stringify Logout locked_out))) =
    [(SessionStorage, RemoveItem AUTH_USER_KEY)].
Proof.
  split_and!; try (vm_compute; reflexivity).
  intros J Pz us u t r e. split_and!.
  - apply saveUsers_returns.
  - apply persistAuth_returns.
  - apply initUsers_returns.
  - apply initUser_returns.
  - apply initToken_returns.
Qed.

(** C8, as stated, fails when the durable backend holds an empty string:
    it has an entry under the token key, and the token restored is the
    one of the session-scoped backend. *)
Lemma empty_durable_token_falls_back :
  stored LocalStorage AUTH_TOKEN_KEY emptied = Some "" /\
  fst (initToken {| world := emptied; queue := no_updates |}) = Returned (Some "t_tab").
Proof. split; vm_compute; reflexivity. Qed.

Lemma restore_prefers_durable_witness :
  reads_succeed both /\
  present LocalStorage both /\
  present SessionStorage both /\
  fst (initToken {| world := both; queue := no_updates |}) = Returned (Some "t_durable").
Proof.
  assert (Hr : reads_succeed both) by (intros [] k m; reflexivity).
  assert (Hl : present LocalStorage both) by (split; vm_compute; eauto).
  assert (Hs : present SessionStorage both) by (split; vm_compute; eauto).
  assert (Ht : stored LocalStorage AUTH_TOKEN_KEY both = Some "t_durable")
    by (vm_compute; reflexivity).
  assert (Hne : "t_durable" <> "") by discriminate.
  exact (conj Hr (conj Hl (conj Hs
           (proj1 (proj2 (proj2 (restore_prefers_durable parse
                     {| world := both; queue := no_updates |})) Hr) "t_durable" Ht Hne)))).
Defined.

Lemma public_user_has_no_password_witness :
  fst (act stringify (Register alice true) (opened never never)) = Returned (Some ok) /\
  user (hooks signed_in) = JObj [("username", JStr "alice"); ("name", JStr "Alice")] /\
  get_prop (user (hooks signed_in)) "password" = None.
Proof.
  assert (H : fst (act stringify (Register alice true) (opened never never)) =
              Returned (Some ok)) by (vm_compute; reflexivity).
  destruct (public_user_has_no_password stringify (opened never never)
              (Register alice true) H) as (acct & Ha & Hu & _ & Hp & _).
  injection Ha as <-. exact (conj H (conj Hu Hp)).
Defined.

Lemma login_leaves_registry_witness :
  fst (act stringify (Login "alice" "pw1" false) signed_in) = Returned (Some ok) /\
  users (hooks (snd (act stringify (Login "alice" "pw1" false) signed_in))) =
    users (hooks signed_in) /\
  stored LocalStorage LOCAL_USERS_KEY
    (browser (snd (act stringify (Login "alice" "pw1" false) signed_in))) =
    stored LocalStorage LOCAL_USERS_KEY (browser signed_in).
Proof.
  assert (H : fst (act stringify (Login "alice" "pw1" false) signed_in) =
              Returned (Some ok)) by (vm_compute; reflexivity).
  destruct (login_leaves_registry stringify signed_in "alice" "pw1" false H)
    as (Hu & Hk & _).
  exact (conj H (conj Hu Hk)).
Defined.

Lemma failed_login_changes_nothing_witness :
  users (hooks signed_in) = [alice] /\
  act stringify (Login "alice" "pw2" true) signed_in =
    (Returned (Some (failure "Invalid credentials")), signed_in).
Proof.
  assert (Hu : users (hooks signed_in) = [alice]) by (vm_compute; reflexivity).
  refine (conj Hu (failed_login_changes_nothing stringify signed_in "alice" "pw2" true _)).
  intros a Ha [_ Hp]. rewrite Hu in Ha. apply list_elem_of_singleton in Ha. subst a.
  discriminate Hp.
Defined.

Lemma usernames_stay_unique_witness :
  NoDup (username <$> users (hooks signed_in)) /\
  NoDup (username <$> users (hooks (snd (act stringify (Register bob false) signed_in)))).
Proof.
  assert (Hn : NoDup (username <$> users (hooks signed_in))).
  { vm_compute. apply NoDup_singleton. }
  exact (conj Hn (usernames_stay_unique stringify signed_in (Register bob false) Hn)).
Defined.

(** * Further properties of the provider and of its consumers *)

(** ** What gets logged *)

Lemma silent_ret {A} (a : A) : silent (ret a).
Proof. done. Qed.

Lemma silent_bind {A B} (m : Run A) (k : A -> Run B) :
  silent m -> (forall a, silent (k a)) -> silent (bind m k).
Proof.
  intros Hm Hk e. unfold bind. specialize (Hm e).
  destruct (m e) as [[a | err] e']; cbn in *; [| done]. by rewrite Hk.
Qed.

Lemma silent_storage_call b c : silent (storage_call b c).
Proof.
  intros e. unfold storage_call. destruct (throws _ _ _); [done |].
  destruct c; destruct b; reflexivity.
Qed.

Lemma silent_setItem b k v : silent (setItem b k v).
Proof. apply silent_bind; [apply silent_storage_call | intros; apply silent_ret]. Qed.

Lemma silent_removeItem b k : silent (removeItem b k).
Proof. apply silent_bind; [apply silent_storage_call | intros; apply silent_ret]. Qed.

Lemma logged_once (body : Run unit) msg e :
  silent body ->
  let e' := snd (try_catch body (fun err => console_error msg err) e) in
  (fst (body e) = Returned tt /\ console (world e') = console (world e)) \/
  (exists err, fst (body e) = Thrown err /\
               console (world e') = (console (world e) ++ [(msg, err)])%list).
Proof.
  intros Hs. unfold try_catch. specialize (Hs e).
  destruct (body e) as [[[] | err] e1]; cbn in *; [by left |].
  right. exists err. by rewrite Hs.
Qed.

(** ** The first render, taken apart *)

Lemma as_accounts_objects us : as_accounts (JArr (account_object <$> us)) = Some us.
Proof.
  cbn. induction us as [| [u p n] us IH]; [done |]. cbn. by rewrite IH.
Qed.

Lemma reads_succeed_evolves K P w w' : evolves K P w w' -> reads_succeed w -> reads_succeed w'.
Proof.
  intros (Hl & Hs & _) Hr [] k m; cbn [area].
  - rewrite Hl. apply (Hr LocalStorage).
  - rewrite Hs. apply (Hr SessionStorage).
Qed.

Section FirstRender.

Variable JSON_stringify : jsval -> string.
Variable JSON_parse : string -> option jsval.

Lemma initUsers_reads e :
  reads_succeed (world e) ->
  fst (initUsers JSON_parse e) =
    Returned (let raw := stored LocalStorage LOCAL_USERS_KEY (world e) in
              if truthy raw then default (JArr []) (JSON_parse (default "" raw)) else JArr []).
Proof.
  destruct e as [[[li lt] [si st] con jr rg dr] q]. intros Hr.
  pose proof (fun k m => Hr LocalStorage k m) as Hl. cbn in Hl.
  unfold initUsers, try_catch, getItem, bind, storage_call, ret, stored. cbn. rewrite Hl. cbn.
  destruct (truthy (li !! LOCAL_USERS_KEY)); [| done].
  generalize (default "" (li !! LOCAL_USERS_KEY)). intros raw.
  match goal with |- context [?f JSON_parse raw] => unfold f end.
  by destruct (JSON_parse raw).
Qed.

(** When the read of the registry throws, the registry starts empty. *)
Lemma initUsers_denied e :
  throws (localStorage (world e)) (GetItem LOCAL_USERS_KEY) (items (localStorage (world e))) = true ->
  fst (initUsers JSON_parse e) = Returned (JArr []).
Proof.
  destruct e as [[[li lt] [si st] con jr rg dr] q]. cbn. intros Ht.
  unfold initUsers, try_catch, getItem, bind, storage_call, ret. cbn. by rewrite Ht.
Qed.

Lemma mount_inv w c :
  mount JSON_stringify JSON_parse w = Some c ->
  exists ju e1 e2 e3,
    fst (initUsers JSON_parse {| world := w; queue := no_updates |}) = Returned ju /\
    as_accounts ju = Some (users (hooks c)) /\
    evolves registry_only any_call w (world e1) /\
    fst (initUser JSON_parse e1) = Returned (user (hooks c)) /\
    evolves registry_only any_call w (world e2) /\
    fst (initToken e2) = Returned (token (hooks c)) /\
    evolves registry_only any_call w (world e3) /\
    browser c = world (snd (saveUsers JSON_stringify (users (hooks c)) e3)).
Proof.
  unfold mount.
  set (e0 := {| world := w; queue := no_updates |}).
  pose proof (stays_initUsers JSON_parse registry_only any_call (fun _ _ => I) e0) as H1.
  set (r1 := initUsers JSON_parse e0) in *.
  pose proof (stays_initUser JSON_parse registry_only any_call (fun _ _ => I) (snd r1)) as H2.
  set (r2 := initUser JSON_parse (snd r1)) in *.
  pose proof (stays_initToken registry_only any_call (fun _ _ => I) (snd r2)) as H3.
  set (r3 := initToken (snd r2)) in *.
  cbn zeta.
  destruct (fst r1) as [ju |] eqn:E1; [| done]. destruct (fst r2) as [v |] eqn:E2; [| done].
  destruct (fst r3) as [t |] eqn:E3; [| done].
  destruct (as_accounts ju) as [us |] eqn:Eu; [| done].
  intros [= <-]. cbn [browser hooks users user token].
  pose proof (evolves_trans _ _ _ _ _ H1 H2) as H12.
  pose proof (evolves_trans _ _ _ _ _ H12 H3) as H123.
  exists ju, (snd r1), (snd r2), (snd r3). split_and!; done.
Qed.

Lemma mount_exists w ju :
  fst (initUsers JSON_parse {| world := w; queue := no_updates |}) = Returned ju ->
  forall us, as_accounts ju = Some us ->
  exists c, mount JSON_stringify JSON_parse w = Some c /\ users (hooks c) = us.
Proof.
  intros E1 us Eu. unfold mount.
  set (e0 := {| world := w; queue := no_updates |}) in *.
  set (r1 := initUsers JSON_parse e0) in *.
  destruct (initUser_returns JSON_parse (snd r1)) as [v E2].
  set (r2 := initUser JSON_parse (snd r1)) in *.
  destruct (initToken_returns (snd r2)) as [t E3].
  set (r3 := initToken (snd r2)) in *.
  cbn zeta. rewrite E1, E2, E3, Eu. eauto.
Qed.

Lemma stored_session_key_evolves w w' b k :
  evolves registry_only any_call w w' -> session_key k -> stored b k w' = stored b k w.
Proof.
  intros (_ & _ & _ & Hk & _) Hs. apply Hk. by apply registry_only_not_session.
Qed.

Lemma restored_text_evolves w w' k :
  evolves registry_only any_call w w' -> session_key k ->
  restored_text k w' = restored_text k w.
Proof.
  intros He Hk. unfold restored_text.
  by rewrite !(stored_session_key_evolves w w' _ k He Hk).
Qed.

(** What the first render restores when the reads succeed. *)
Lemma mount_restores w c :
  mount JSON_stringify JSON_parse w = Some c ->
  reads_succeed w ->
  token (hooks c) =
    (if truthy (restored_text AUTH_TOKEN_KEY w) then restored_text AUTH_TOKEN_KEY w else None) /\
  user (hooks c) =
    (if truthy (restored_text AUTH_USER_KEY w)
     then default JNull (JSON_parse (default "" (restored_text AUTH_USER_KEY w)))
     else JNull).
Proof.
  intros Hm Hr.
  destruct (mount_inv w c Hm) as (ju & e1 & e2 & e3 & _ & _ & He1 & Hv & He2 & Ht & _ & _).
  rewrite (initUser_reads JSON_parse e1) in Hv by (by eapply reads_succeed_evolves).
  rewrite (initToken_reads e2) in Ht by (by eapply reads_succeed_evolves).
  injection Hv as Hv. injection Ht as Ht. cbn zeta in Hv.
  fold (restored_text AUTH_USER_KEY (world e1)) in Hv.
  rewrite (restored_text_evolves w (world e1) AUTH_USER_KEY He1) in Hv by (by left).
  rewrite !(stored_session_key_evolves w (world e2) _ AUTH_TOKEN_KEY He2) in Ht by (by right).
  split; [| done]. rewrite <- Ht. unfold restored_text.
  destruct (truthy (stored LocalStorage AUTH_TOKEN_KEY w)) eqn:El; [by rewrite El |].
  done.
Qed.

Lemma saveUsers_stores us e :
  (forall v m, throws (localStorage (world e)) (SetItem LOCAL_USERS_KEY v) m = false) ->
  stored LocalStorage LOCAL_USERS_KEY (world (snd (saveUsers JSON_stringify us e))) =
    Some (JSON_stringify (JArr (account_object <$> us))).
Proof.
  destruct e as [[[li lt] [si st] con jr rg dr] q]. cbn. intros Ht.
  unfold saveUsers, try_catch, setItem, bind, storage_call, ret, stored. cbn.
  rewrite Ht. cbn. by rewrite lookup_insert_eq.
Qed.

Lemma mount_mirrored w c :
  mount JSON_stringify JSON_parse w = Some c -> fault_free w -> mirrored JSON_stringify c.
Proof.
  intros Hm Hf.
  destruct (mount_inv w c Hm) as (ju & e1 & e2 & e3 & _ & _ & _ & _ & _ & _ & He3 & Hb).
  unfold mirrored. rewrite Hb. apply saveUsers_stores.
  intros v m. apply (fault_free_evolves _ _ _ _ He3 Hf).
Qed.

Lemma act_mirrored a c :
  fault_free (browser c) -> mirrored JSON_stringify c ->
  mirrored JSON_stringify (snd (act JSON_stringify a c)).
Proof.
  intros Hf Hm. unfold mirrored in *.
  assert (Hframe : forall (m : Run Result) e,
            stays (fun _ k => session_key k) any_call m ->
            stored LocalStorage LOCAL_USERS_KEY (world (snd (m e))) =
            stored LocalStorage LOCAL_USERS_KEY (world e)).
  { intros m e Hs. destruct (Hs e) as (_ & _ & _ & Hk & _).
    apply Hk, registry_key_not_session. }
  destruct a as [input remember | uname pword remember |].
  - rewrite act_Register.
    destruct (falsy (username input) || falsy (password input)); [done |].
    destruct (existsb _ _); [done |].
    cbn zeta. cbn [snd hooks users browser]. apply saveUsers_stores.
    intros v m. cbn [world].
    match goal with |- context [activate _ ?a ?r ?e0] =>
      pose proof (stays_activate JSON_stringify app_keys any_call a r) as H;
      specialize (H (fun b k Hk => or_introl Hk) (fun _ => I) (fun _ _ => I)
                    (fun _ _ _ => I) e0) end.
    apply (fault_free_evolves _ _ _ _ H Hf).
  - rewrite act_Login.
    destruct (List.find _ _) as [found |]; [| done].
    cbn [snd hooks users browser]. rewrite Hframe; [done |].
    by apply stays_activate.
  - rewrite act_Logout. cbn [snd hooks users browser].
    destruct (stays_logout (fun _ k => session_key k) any_call
                (fun _ _ H => H) (fun _ _ _ => I) (first_env c)) as (_ & _ & _ & Hk & _).
    rewrite Hk; [done | apply registry_key_not_session].
Qed.

Lemma reachable_mirrored w0 c :
  fault_free w0 -> reachable JSON_stringify JSON_parse w0 c ->
  fault_free (browser c) /\ mirrored JSON_stringify c.
Proof.
  intros Hf Hr. induction Hr as [c Hm | c c' Hr [Hf' IH] Hstep].
  - split; [| by eapply mount_mirrored].
    eapply fault_free_evolves; [apply (mount_evolves _ _ _ _ Hm) | exact Hf].
  - destruct Hstep as [a c | c c' Hm | c c' Hm].
    + split; [| by apply act_mirrored].
      eapply fault_free_evolves; [apply act_evolves | exact Hf'].
    + split; [| by eapply mount_mirrored].
      eapply fault_free_evolves; [apply (mount_evolves _ _ _ _ Hm) | exact Hf'].
    + assert (Hc : fault_free (close_tab (browser c))) by (destruct Hf'; by split).
      split; [| by eapply mount_mirrored].
      eapply fault_free_evolves; [apply (mount_evolves _ _ _ _ Hm) | exact Hc].
Qed.

End FirstRender.

(** ** Sessions and the registry across reloads *)

Lemma stored_close_tab b k w :
  stored b k (close_tab w) =
    match b with LocalStorage => stored LocalStorage k w | SessionStorage => None end.
Proof. destruct b; [done | apply lookup_empty]. Qed.

Lemma fault_free_close_tab w : fault_free w -> fault_free (close_tab w).
Proof. intros [Hl Hs]. by split. Qed.

Lemma reads_succeed_close_tab w : reads_succeed w -> reads_succeed (close_tab w).
Proof. intros Hr [] k m; [apply (Hr LocalStorage) | apply (Hr SessionStorage)]. Qed.

Lemma truthy_token digits : truthy (Some ("t_" ++ digits)) = true.
Proof. done. Qed.

Lemma truthy_text s : s <> "" -> truthy (Some s) = true.
Proof.
  intros Hs. cbn. apply negb_true_iff, not_true_is_false. by rewrite falsy_spec.
Qed.

Lemma restored_text_durable k w s :
  stored LocalStorage k w = Some s -> s <> "" -> restored_text k w = Some s.
Proof. intros Hl Hs. unfold restored_text. by rewrite Hl, truthy_text. Qed.

Lemma restored_text_session k w :
  truthy (stored LocalStorage k w) = false ->
  restored_text k w = stored SessionStorage k w.
Proof. intros Hl. unfold restored_text. by rewrite Hl. Qed.

Section Reloads.

Variable JSON_stringify : jsval -> string.
Variable JSON_parse : string -> option jsval.

Lemma act_success_token a c :
  fst (act JSON_stringify a c) = Returned (Some ok) ->
  token (hooks (snd (act JSON_stringify a c))) =
    Some ("t_" ++ rng (browser c) (draws (browser c))).
Proof.
  destruct a as [input remember | uname pword remember |].
  - rewrite act_Register.
    destruct (falsy (username input) || falsy (password input)); [discriminate |].
    by destruct (existsb _ _).
  - rewrite act_Login. by destruct (List.find _ _).
  - rewrite act_Logout. cbn [fst]. destruct (fst (logout _)); discriminate.
Qed.

(** X4.  In every state reached, by register, login, logout, reloads
    and new tabs, from a first render in a browser whose storage calls
    do not throw, the durable backend holds under the registry key the
    serialisation of the users sequence in memory, passwords included. *)
Theorem registry_mirrored_in_storage (w0 : World) (c : Component) :
  fault_free w0 ->
  reachable JSON_stringify JSON_parse w0 c ->
  stored LocalStorage LOCAL_USERS_KEY (browser c) =
    Some (JSON_stringify (JArr (account_object <$> users (hooks c)))).
Proof. intros Hf Hr. apply (reachable_mirrored JSON_stringify JSON_parse w0 c Hf Hr). Qed.

(** X5.  When the durable backend holds the serialisation of the
    registry, its reads succeed and JSON.parse gives the registry back
    from that text, a reload (in the same tab or in a new one) mounts
    the provider with the same users sequence. *)
Theorem registry_survives_reload (c : Component) (w' : World) :
  let registry := JArr (account_object <$> users (hooks c)) in
  reads_succeed (browser c) ->
  stored LocalStorage LOCAL_USERS_KEY (browser c) = Some (JSON_stringify registry) ->
  JSON_stringify registry <> "" ->
  JSON_parse (JSON_stringify registry) = Some registry ->
  w' = browser c \/ w' = close_tab (browser c) ->
  exists c', mount JSON_stringify JSON_parse w' = Some c' /\
             users (hooks c') = users (hooks c).
Proof.
  intros registry Hr Hm Hne Hp Hw.
  assert (Hr' : reads_succeed w')
    by (destruct Hw as [-> | ->]; [done | by apply reads_succeed_close_tab]).
  assert (Hs : stored LocalStorage LOCAL_USERS_KEY w' = Some (JSON_stringify registry))
    by (destruct Hw as [-> | ->]; [done | by rewrite stored_close_tab]).
  apply (mount_exists JSON_stringify JSON_parse w' registry).
  - rewrite initUsers_reads by done. cbn [world]. rewrite Hs.
    rewrite truthy_text by done. cbn. by rewrite Hp.
  - apply as_accounts_objects.
Qed.

(** X6.  Remember me: after a successful register or login with
    remember true, when no storage call throws and JSON.parse gives the
    current user back from its serialisation, a reload, in the same tab
    or in a new one, restores the same token and the same user, and the
    provider is authenticated. *)
Theorem remembered_session_survives (c : Component) (a : Action) (w' : World)
    (c'' : Component) :
  fault_free (browser c) ->
  fst (act JSON_stringify a c) = Returned (Some ok) ->
  remembers a = true ->
  let c' := snd (act JSON_stringify a c) in
  JSON_stringify (user (hooks c')) <> "" ->
  JSON_parse (JSON_stringify (user (hooks c'))) = Some (user (hooks c')) ->
  w' = browser c' \/ w' = close_tab (browser c') ->
  mount JSON_stringify JSON_parse w' = Some c'' ->
  token (hooks c'') = token (hooks c') /\
  user (hooks c'') = user (hooks c') /\
  isAuthenticated (token (hooks c'')) = true.
Proof.
  intros Hf Hok Hrem c' Hne Hp Hw Hm. subst c'.
  set (c' := snd (act JSON_stringify a c)) in *.
  destruct (act_success_places JSON_stringify c a Hf Hok) as (t & Ht & [Hu Hk] & _).
  fold c' in Ht, Hu, Hk. rewrite Hrem in Hu, Hk. cbn [chosen] in Hu, Hk.
  pose proof (act_success_token a c Hok) as Htok. fold c' in Htok.
  assert (Hf' : fault_free (browser c'))
    by (eapply fault_free_evolves; [apply act_evolves | exact Hf]).
  assert (Hr' : reads_succeed w').
  { destruct Hw as [-> | ->]; [| apply reads_succeed_close_tab]; by apply fault_free_reads. }
  assert (Hl : forall k, stored LocalStorage k w' = stored LocalStorage k (browser c'))
    by (intros k; destruct Hw as [-> | ->]; [done | by rewrite stored_close_tab]).
  destruct (mount_restores JSON_stringify JSON_parse w' c'' Hm Hr') as [Rt Ru].
  rewrite Ht in Htok. injection Htok as ->.
  rewrite (restored_text_durable AUTH_TOKEN_KEY w' _) in Rt by (by rewrite ?Hl).
  rewrite (restored_text_durable AUTH_USER_KEY w' _) in Ru by (by rewrite ?Hl).
  rewrite truthy_token in Rt. rewrite truthy_text in Ru by done.
  cbn [default] in Ru. unfold id in Ru. rewrite Hp in Ru.
  rewrite Rt, Ru, Ht. done.
Qed.

(** X7.  Without remember me the session belongs to the tab: after a
    successful register or login with remember false, when no storage
    call throws, a reload in the same tab restores the same token (and
    the same user, when JSON.parse gives it back from its
    serialisation), and the page opened in a new tab starts with no
    token and no user. *)
Theorem unremembered_session_is_per_tab (c : Component) (a : Action) (c'' : Component) :
  fault_free (browser c) ->
  fst (act JSON_stringify a c) = Returned (Some ok) ->
  remembers a = false ->
  let c' := snd (act JSON_stringify a c) in
  (mount JSON_stringify JSON_parse (browser c') = Some c'' ->
   token (hooks c'') = token (hooks c') /\
   isAuthenticated (token (hooks c'')) = true /\
   (JSON_stringify (user (hooks c')) <> "" ->
    JSON_parse (JSON_stringify (user (hooks c'))) = Some (user (hooks c')) ->
    user (hooks c'') = user (hooks c'))) /\
  (mount JSON_stringify JSON_parse (close_tab (browser c')) = Some c'' ->
   token (hooks c'') = None /\
   user (hooks c'') = JNull /\
   isAuthenticated (token (hooks c'')) = false).
Proof.
  intros Hf Hok Hrem c'. subst c'.
  set (c' := snd (act JSON_stringify a c)) in *.
  destruct (act_success_places JSON_stringify c a Hf Hok) as (t & Ht & [Hu Hk] & [Au Ak]).
  fold c' in Ht, Hu, Hk, Au, Ak. rewrite Hrem in Hu, Hk, Au, Ak.
  cbn [chosen other] in Hu, Hk, Au, Ak.
  pose proof (act_success_token a c Hok) as Htok. fold c' in Htok.
  assert (Hf' : fault_free (browser c'))
    by (eapply fault_free_evolves; [apply act_evolves | exact Hf]).
  split; intros Hm.
  - destruct (mount_restores JSON_stringify JSON_parse _ c'' Hm (fault_free_reads _ Hf'))
      as [Rt Ru].
    rewrite restored_text_session, Hk in Rt by (by rewrite Ak).
    rewrite restored_text_session, Hu in Ru by (by rewrite Au).
    rewrite Ht in Htok. injection Htok as ->. rewrite truthy_token in Rt.
    split_and!; [by rewrite Rt, Ht | by rewrite Rt |].
    intros Hne Hp. rewrite truthy_text in Ru by done. cbn [default] in Ru.
    unfold id in Ru. by rewrite Ru, Hp.
  - destruct (mount_restores JSON_stringify JSON_parse _ c'' Hm
                (reads_succeed_close_tab _ (fault_free_reads _ Hf'))) as [Rt Ru].
    rewrite restored_text_session, stored_close_tab in Rt
      by (by rewrite stored_close_tab, Ak).
    rewrite restored_text_session, stored_close_tab in Ru
      by (by rewrite stored_close_tab, Au).
    cbn [truthy] in Rt, Ru. by rewrite Rt, Ru.
Qed.

(** X8.  After a logout whose removals do not throw, a reload whose
    reads succeed, in the same tab or in a new one, starts with no token
    and no user: the session does not come back. *)
Theorem logged_out_stays_out (c : Component) (w' : World) (c'' : Component) :
  removals_succeed (browser c) ->
  reads_succeed (browser c) ->
  let c' := snd (act JSON_stringify Logout c) in
  w' = browser c' \/ w' = close_tab (browser c') ->
  mount JSON_stringify JSON_parse w' = Some c'' ->
  token (hooks c'') = None /\
  user (hooks c'') = JNull /\
  isAuthenticated (token (hooks c'')) = false.
Proof.
  intros Hrm Hrd c' Hw Hm.
  assert (Hc : absent LocalStorage (browser c') /\ absent SessionStorage (browser c')).
  { unfold c'. rewrite act_Logout. cbn [snd browser].
    destruct (logout_clears (first_env c) Hrm) as (_ & Hl & Hs). done. }
  assert (Hrd' : reads_succeed (browser c'))
    by (eapply reads_succeed_evolves; [apply act_evolves | exact Hrd]).
  assert (Hr' : reads_succeed w')
    by (destruct Hw as [-> | ->]; [done | by apply reads_succeed_close_tab]).
  assert (Hn : forall k, session_key k -> restored_text k w' = None).
  { intros k Hk. unfold restored_text.
    assert (Hl : stored LocalStorage k w' = None).
    { destruct Hw as [-> | ->]; rewrite ?stored_close_tab;
        destruct Hk as [-> | ->]; apply Hc. }
    assert (Hs : stored SessionStorage k w' = None).
    { destruct Hw as [-> | ->]; rewrite ?stored_close_tab; [| done].
      destruct Hk as [-> | ->]; apply Hc. }
    by rewrite Hl, Hs. }
  destruct (mount_restores JSON_stringify JSON_parse w' c'' Hm Hr') as [Rt Ru].
  rewrite Hn in Rt by (by right). rewrite Hn in Ru by (by left).
  cbn [truthy] in Rt, Ru. by rewrite Rt, Ru.
Qed.

End Reloads.

(** ** Failing storage, and what the first render makes of odd contents *)

Section Edges.

Variable JSON_stringify : jsval -> string.
Variable JSON_parse : string -> option jsval.

Lemma silent_persistAuth_body u t (remember : bool) :
  silent (if remember then
            setItem LocalStorage AUTH_USER_KEY (JSON_stringify u) >>
            setItem LocalStorage AUTH_TOKEN_KEY t >>
            removeItem SessionStorage AUTH_USER_KEY >>
            removeItem SessionStorage AUTH_TOKEN_KEY
          else
            setItem SessionStorage AUTH_USER_KEY (JSON_stringify u) >>
            setItem SessionStorage AUTH_TOKEN_KEY t >>
            removeItem LocalStorage AUTH_USER_KEY >>
            removeItem LocalStorage AUTH_TOKEN_KEY)%run.
Proof.
  destruct remember;
    repeat (apply silent_bind; [first [apply silent_setItem | apply silent_removeItem] | intros _]);
    first [apply silent_setItem | apply silent_removeItem].
Qed.

(** When its first write throws, [persistAuth] changes no entry. *)
Lemma persistAuth_first_write_fails u t remember e :
  throws (area (chosen remember) (world e)) (SetItem AUTH_USER_KEY (JSON_stringify u))
    (items (area (chosen remember) (world e))) = true ->
  forall b k,
    stored b k (world (snd (persistAuth JSON_stringify u t remember e))) = stored b k (world e).
Proof.
  destruct e as [[[li lt] [si st] con jr rg dr] q].
  destruct remember; cbn; intros Ht b k;
    unfold persistAuth, try_catch, setItem, bind, storage_call, ret; cbn; rewrite Ht; cbn;
    by destruct b.
Qed.

(** X9.  persistAuth never throws and requests no state update; it
    changes no stored entry other than the two session keys; the storage
    calls it makes are its four calls on the session keys, in order, up
    to the first one that throws; it logs nothing when none of them
    throws, and when one throws it logs exactly one persistAuth error,
    carrying the exception of that call; so it logs nothing in a browser
    whose storage never fails; and when its first write throws, the
    exception of that write is logged and no stored entry changes at
    all. *)
Theorem persistAuth_is_confined (userObj : jsval) (tokenStr : string) (remember : bool)
    (e : Env) :
  let e' := snd (persistAuth JSON_stringify userObj tokenStr remember e) in
  let calls := persistAuth_calls (JSON_stringify userObj) tokenStr remember in
  fst (persistAuth JSON_stringify userObj tokenStr remember e) = Returned tt /\
  queue e' = queue e /\
  (forall b k, ~ session_key k -> stored b k (world e') = stored b k (world e)) /\
  (exists new,
     journal (world e') = (journal (world e) ++ new)%list /\
     Forall (fun bc => session_key (call_key bc.2)) new) /\
  journal (world e') = (journal (world e) ++ calls_made calls e)%list /\
  console (world e') =
    (console (world e) ++
     match first_failure calls e with
     | None => []
     | Some (b, call) => [("persistAuth error", DOMException b call)]
     end)%list /\
  (fault_free (world e) ->
   first_failure calls e = None /\ console (world e') = console (world e)) /\
  (throws (area (chosen remember) (world e))
     (SetItem AUTH_USER_KEY (JSON_stringify userObj))
     (items (area (chosen remember) (world e))) = true ->
   first_failure calls e =
     Some (chosen remember, SetItem AUTH_USER_KEY (JSON_stringify userObj)) /\
   console (world e') =
     (console (world e) ++
      [("persistAuth error",
        DOMException (chosen remember)
          (SetItem AUTH_USER_KEY (JSON_stringify userObj)))])%list /\
   forall b k, stored b k (world e') = stored b k (world e)).
Proof.
  cbn zeta.
  destruct (persistAuth_trace JSON_stringify userObj tokenStr remember e) as [Hj Hc].
  cbn zeta in Hj, Hc.
  split_and!.
  - apply persistAuth_returns.
  - apply quiet_persistAuth.
  - eapply (stays_persistAuth JSON_stringify (fun _ k => session_key k)
              (fun _ call => session_key (call_key call))); try done.
    + intros b. by left.
    + intros b. by right.
  - eapply (stays_persistAuth JSON_stringify (fun _ k => session_key k)
              (fun _ call => session_key (call_key call))); try done.
    + intros b. by left.
    + intros b. by right.
  - exact Hj.
  - exact Hc.
  - intros Hf. split; [by apply fault_free_first_failure |].
    by destruct (persistAuth_places JSON_stringify userObj tokenStr remember e Hf)
      as (_ & _ & H).
  - intros Ht.
    assert (Hfirst : first_failure
                       (persistAuth_calls (JSON_stringify userObj) tokenStr remember) e =
                     Some (chosen remember,
                           SetItem AUTH_USER_KEY (JSON_stringify userObj))).
    { clear Hj Hc. destruct e as [[[li lt] [si st] con jr rg dr] q].
      unfold persistAuth_calls, first_failure, storage_call.
      destruct remember; cbn in Ht |- *; by rewrite Ht. }
    split_and!.
    + exact Hfirst.
    + by rewrite Hc, Hfirst.
    + by apply persistAuth_first_write_fails.
Qed.

(** X10.  A failed persist leaves the previous session behind.  In a
    browser where every write to the durable backend throws and every
    other call succeeds, and whose session-scoped backend holds a
    session pair with a non-empty token while the durable backend holds
    no token, a successful login with remember true leaves that pair in
    place, and a reload restores its token, not the one of the login. *)
Theorem failed_persist_restores_previous_session (c : Component) (uname pword : string)
    (oldUser oldToken : string) (c'' : Component) :
  durable_full (browser c) ->
  holds_pair SessionStorage oldUser oldToken (browser c) ->
  oldToken <> "" ->
  truthy (stored LocalStorage AUTH_TOKEN_KEY (browser c)) = false ->
  fst (act JSON_stringify (Login uname pword true) c) = Returned (Some ok) ->
  let c' := snd (act JSON_stringify (Login uname pword true) c) in
  mount JSON_stringify JSON_parse (browser c') = Some c'' ->
  token (hooks c') = Some ("t_" ++ rng (browser c) (draws (browser c))) /\
  holds_pair SessionStorage oldUser oldToken (browser c') /\
  token (hooks c'') = Some oldToken.
Proof.
  intros (Hset & Hget & Hrem & Hses) [Hu Hk] Hne Hl Hok c' Hm. subst c'.
  pose proof (act_success_token JSON_stringify _ c Hok) as Htok.
  assert (Hsame : forall b k,
            stored b k (browser (snd (act JSON_stringify (Login uname pword true) c))) =
            stored b k (browser c)).
  { revert Hok. rewrite act_Login. destruct (List.find _ _) as [found |]; [| discriminate].
    intros _ b k. cbn [snd browser]. rewrite activate_unfold. cbn [snd].
    rewrite persistAuth_first_write_fails; [done |]. apply Hset. }
  assert (Hr : reads_succeed (browser (snd (act JSON_stringify (Login uname pword true) c)))).
  { eapply reads_succeed_evolves; [apply act_evolves |].
    intros [] k m; [apply Hget | apply Hses]. }
  destruct (mount_restores JSON_stringify JSON_parse _ c'' Hm Hr) as [Rt _].
  rewrite restored_text_session in Rt by (by rewrite Hsame).
  rewrite Hsame, Hk, truthy_text in Rt by done.
  split_and!; [done | by split; rewrite Hsame | done].
Qed.

(** X11.  A token without a user.  When the reads succeed and the
    durable backend holds a non-empty token while the user text read is
    absent, empty or rejected by JSON.parse, the first render is
    authenticated with a null user: [AuthDemo] shows the profile and the
    greeting is No user. *)
Theorem token_without_user (w : World) (c : Component) (t mode : string) :
  reads_succeed w ->
  stored LocalStorage AUTH_TOKEN_KEY w = Some t ->
  t <> "" ->
  truthy (restored_text AUTH_USER_KEY w) = false \/
    JSON_parse (default "" (restored_text AUTH_USER_KEY w)) = None ->
  mount JSON_stringify JSON_parse w = Some c ->
  token (hooks c) = Some t /\
  isAuthenticated (token (hooks c)) = true /\
  user (hooks c) = JNull /\
  view mode c = ProfileView /\
  greeting (user (hooks c)) = Some "No user".
Proof.
  intros Hr Ht Hne Hu Hm.
  destruct (mount_restores JSON_stringify JSON_parse w c Hm Hr) as [Rt Ru].
  rewrite (restored_text_durable AUTH_TOKEN_KEY w t Ht Hne), truthy_text in Rt by done.
  assert (Hnull : user (hooks c) = JNull).
  { rewrite Ru. destruct (truthy (restored_text AUTH_USER_KEY w)); [| done].
    destruct Hu as [Hu | Hu]; [discriminate | by rewrite Hu]. }
  unfold view. rewrite Rt, Hnull. split_and!; try done.
  - by apply truthy_text.
  - unfold isAuthenticated. by rewrite truthy_text.
Qed.

(** X12.  A registry that cannot be read is replaced.  When the read of
    the registry key throws, or gives nothing, an empty string or a text
    JSON.parse rejects, the provider mounts with an empty users
    sequence; and when the write of the effect does not throw, the
    durable backend then holds the serialisation of the empty array
    under the registry key, whatever it held before. *)
Theorem unreadable_registry_starts_empty (w : World) :
  throws (localStorage w) (GetItem LOCAL_USERS_KEY) (items (localStorage w)) = true \/
  (reads_succeed w /\
   (truthy (stored LocalStorage LOCAL_USERS_KEY w) = false \/
    JSON_parse (default "" (stored LocalStorage LOCAL_USERS_KEY w)) = None)) ->
  exists c,
    mount JSON_stringify JSON_parse w = Some c /\
    users (hooks c) = [] /\
    ((forall v m, throws (localStorage w) (SetItem LOCAL_USERS_KEY v) m = false) ->
     stored LocalStorage LOCAL_USERS_KEY (browser c) = Some (JSON_stringify (JArr []))).
Proof.
  intros H.
  assert (Hi : fst (initUsers JSON_parse {| world := w; queue := no_updates |}) =
               Returned (JArr [])).
  { destruct H as [H | [Hr H]]; [by apply initUsers_denied |].
    rewrite initUsers_reads by done. cbn [world]. cbn zeta.
    destruct (truthy (stored LocalStorage LOCAL_USERS_KEY w)); [| done].
    destruct H as [H | H]; [discriminate | by rewrite H]. }
  destruct (mount_exists JSON_stringify JSON_parse w (JArr []) Hi [] eq_refl) as (c & Hm & Hu).
  exists c. split_and!; try done.
  intros Hw.
  destruct (mount_inv JSON_stringify JSON_parse w c Hm)
    as (ju & e1 & e2 & e3 & _ & _ & _ & _ & _ & _ & He3 & Hb).
  rewrite Hb, Hu. rewrite saveUsers_stores; [done |].
  intros v m. destruct He3 as (Hl & _). rewrite Hl. apply Hw.
Qed.

(** X19.  The user and the token are restored each on its own.  When
    the reads succeed and the durable backend holds a non-empty user
    text and no token, while the session-scoped backend holds a
    non-empty token, the first render takes the user from the durable
    backend and the token from the session-scoped one, whatever user the
    latter holds, and is authenticated. *)
Theorem restore_reads_each_key_on_its_own (w : World) (c : Component) (raw t : string) :
  reads_succeed w ->
  stored LocalStorage AUTH_USER_KEY w = Some raw ->
  raw <> "" ->
  truthy (stored LocalStorage AUTH_TOKEN_KEY w) = false ->
  stored SessionStorage AUTH_TOKEN_KEY w = Some t ->
  t <> "" ->
  mount JSON_stringify JSON_parse w = Some c ->
  user (hooks c) = default JNull (JSON_parse raw) /\
  token (hooks c) = Some t /\
  isAuthenticated (token (hooks c)) = true.
Proof.
  intros Hr Hu Hne Hl Hs Hnt Hm.
  destruct (mount_restores JSON_stringify JSON_parse w c Hm Hr) as [Rt Ru].
  rewrite (restored_text_durable AUTH_USER_KEY w raw Hu Hne), truthy_text in Ru by done.
  rewrite restored_text_session, Hs, truthy_text in Rt by done.
  rewrite Rt, Ru. split_and!; try done. by apply truthy_text.
Qed.

End Edges.

(** ** The forms, the users list, the view and the greeting *)

Lemma find_app_last {A} (f : A -> bool) (l : list A) (y : A) :
  (forall x, x ∈ l -> f x = false) -> f y = true -> List.find f (l ++ [y]) = Some y.
Proof.
  intros Hl Hy. induction l as [| x l IH]; cbn; [by rewrite Hy |].
  rewrite (Hl x) by (by left). apply IH. intros z Hz. apply Hl. by right.
Qed.


Section Consumers.

Variable JSON_stringify : jsval -> string.

Lemma handle_ext {A} (op op' : Run A) c :
  (forall e, op e = op' e) -> handle JSON_stringify op c = handle JSON_stringify op' c.
Proof. intros H. unfold handle. by rewrite H. Qed.

Lemma submitRegister_act f c res :
  let input := {| username := trim (rf_username f); password := rf_password f;
                  name := trim (rf_name f) |} in
  fst (act JSON_stringify (Register input (rf_remember f)) c) = Returned (Some res) ->
  submitRegister JSON_stringify f c =
  (Returned (if success res
             then {| rf_username := ""; rf_password := ""; rf_name := "";
                     rf_remember := rf_remember f;
                     rf_msg := Some "Registered & logged in" |}
             else {| rf_username := rf_username f; rf_password := rf_password f;
                     rf_name := rf_name f; rf_remember := rf_remember f;
                     rf_msg := message res |}),
   snd (act JSON_stringify (Register input (rf_remember f)) c)).
Proof.
  intros input. unfold submitRegister, act.
  rewrite (handle_ext _
             (let* r := register JSON_stringify (users (hooks c)) input (rf_remember f) in
              ret (if success r
                   then {| rf_username := ""; rf_password := ""; rf_name := "";
                           rf_remember := rf_remember f;
                           rf_msg := Some "Registered & logged in" |}
                   else {| rf_username := rf_username f; rf_password := rf_password f;
                           rf_name := rf_name f; rf_remember := rf_remember f;
                           rf_msg := message r |}))%run c).
  - rewrite !handle_then. cbn [fst snd].
    destruct (fst (register _ _ _ _ _)) as [r |]; [| discriminate].
    by intros [= ->].
  - intros e. unfold RegisterForm_handleSubmit, bind. fold input.
    destruct (register _ _ _ _ e) as [[r |] e']; [| done]. by destruct (success r).
Qed.

Lemma submitLogin_act f c res :
  fst (act JSON_stringify (Login (trim (lf_username f)) (lf_password f) (lf_remember f)) c) =
    Returned (Some res) ->
  submitLogin JSON_stringify f c =
  (Returned (if success res
             then {| lf_username := ""; lf_password := ""; lf_remember := lf_remember f;
                     lf_msg := Some "Logged in" |}
             else {| lf_username := lf_username f; lf_password := lf_password f;
                     lf_remember := lf_remember f; lf_msg := message res |}),
   snd (act JSON_stringify (Login (trim (lf_username f)) (lf_password f) (lf_remember f)) c)).
Proof.
  unfold submitLogin, act.
  rewrite (handle_ext _
             (let* r := login JSON_stringify (users (hooks c)) (trim (lf_username f))
                          (lf_password f) (lf_remember f) in
              ret (if success r
                   then {| lf_username := ""; lf_password := ""; lf_remember := lf_remember f;
                           lf_msg := Some "Logged in" |}
                   else {| lf_username := lf_username f; lf_password := lf_password f;
                           lf_remember := lf_remember f; lf_msg := message r |}))%run c).
  - rewrite !handle_then. cbn [fst snd].
    destruct (fst (login _ _ _ _ _ _)) as [r |]; [| discriminate].
    by intros [= ->].
  - intros e. unfold LoginForm_handleSubmit, bind.
    destruct (login _ _ _ _ _ e) as [[r |] e']; [| done]. by destruct (success r).
Qed.

(** X13.  Submitting the register form, which AuthDemo renders while
    no token is set and the mode is not login.  With an empty username
    after trimming or an empty password, or with a username that after
    trimming is taken, the provider and the browser are as they were,
    and the form, still rendered, keeps its fields and shows the message
    of the failure.  Otherwise the account registered is the trimmed
    username, the password as typed and the trimmed name, appended to
    the users sequence, and it is signed in; the handler returns after
    requesting empty fields and the message Registered & logged in, but
    the render that follows shows the profile under every mode, so the
    form is unmounted and shows neither. *)
Theorem register_form_outcomes (f : RegisterForm) (c : Component) (mode : string) :
  let input := {| username := trim (rf_username f); password := rf_password f;
                  name := trim (rf_name f) |} in
  let kept msg := {| rf_username := rf_username f; rf_password := rf_password f;
                     rf_name := rf_name f; rf_remember := rf_remember f;
                     rf_msg := Some msg |} in
  (trim (rf_username f) = "" \/ rf_password f = "" ->
   submitRegister JSON_stringify f c =
     (Returned (kept "Provide username and password"), c) /\
   (view mode c = RegisterFormView ->
    RegisterForm_after_submit JSON_stringify mode f c =
      Some (kept "Provide username and password"))) /\
  (trim (rf_username f) <> "" -> rf_password f <> "" ->
   (exists a, a ∈ users (hooks c) /\ username a = trim (rf_username f)) ->
   submitRegister JSON_stringify f c = (Returned (kept "User already exists"), c) /\
   (view mode c = RegisterFormView ->
    RegisterForm_after_submit JSON_stringify mode f c = Some (kept "User already exists"))) /\
  (trim (rf_username f) <> "" -> rf_password f <> "" ->
   (forall a, a ∈ users (hooks c) -> username a <> trim (rf_username f)) ->
   let c' := snd (submitRegister JSON_stringify f c) in
   fst (submitRegister JSON_stringify f c) =
     Returned {| rf_username := ""; rf_password := ""; rf_name := "";
                 rf_remember := rf_remember f;
                 rf_msg := Some "Registered & logged in" |} /\
   users (hooks c') = (users (hooks c) ++ [input])%list /\
   user (hooks c') = publicUser input /\
   isAuthenticated (token (hooks c')) = true /\
   view mode c' = ProfileView /\
   RegisterForm_after_submit JSON_stringify mode f c = None).
Proof.
  intros input kept.
  pose proof (act_Register JSON_stringify c input (rf_remember f)) as Hact.
  subst input kept. cbn [username password] in Hact.
  assert (Hne : forall s, s <> "" -> falsy s = false)
    by (intros s Hs; apply not_true_is_false; by rewrite falsy_spec).
  assert (Hkept : forall r,
            submitRegister JSON_stringify f c = (Returned r, c) ->
            submitRegister JSON_stringify f c = (Returned r, c) /\
            (view mode c = RegisterFormView ->
             RegisterForm_after_submit JSON_stringify mode f c = Some r)).
  { intros r Heq. split; [exact Heq |]. intros Hv.
    unfold RegisterForm_after_submit. rewrite Heq. cbn [fst snd]. by rewrite Hv. }
  split_and!.
  - intros H. apply Hkept.
    assert (falsy (trim (rf_username f)) || falsy (rf_password f) = true) as He
      by (apply orb_true_iff; by rewrite !falsy_spec).
    rewrite He in Hact.
    rewrite (submitRegister_act f c (failure "Provide username and password"));
      by rewrite Hact.
  - intros Hu Hp Hdup. apply Hkept.
    rewrite (Hne _ Hu), (Hne _ Hp) in Hact. cbn [orb] in Hact.
    apply existsb_username in Hdup. rewrite Hdup in Hact.
    rewrite (submitRegister_act f c (failure "User already exists")); by rewrite Hact.
  - intros Hu Hp Hnew. rewrite (Hne _ Hu), (Hne _ Hp) in Hact. cbn [orb] in Hact.
    assert (existsb (fun u => String.eqb (username u) (trim (rf_username f)))
              (users (hooks c)) = false) as He.
    { apply not_true_is_false. rewrite existsb_username. intros (a & Ha & Heq).
      by apply (Hnew a Ha). }
    rewrite He in Hact. cbn zeta in Hact |- *.
    unfold RegisterForm_after_submit, view.
    rewrite (submitRegister_act f c ok) by (by rewrite Hact).
    cbn [fst snd success ok]. rewrite Hact. cbn [snd hooks users user token]. done.
Qed.

(** X14.  Submitting the login form, which AuthDemo renders while no
    token is set and the mode is login.  The username is trimmed and the
    password is taken as typed.  When no registered account has that
    username and that password, the provider and the browser are as they
    were, and the form, still rendered, keeps its fields and shows
    Invalid credentials.  Otherwise the first such account is signed in
    and the registry is unchanged; the handler returns after requesting
    empty fields and the message Logged in, but the render that follows
    shows the profile under every mode, so the form is unmounted and
    shows neither. *)
Theorem login_form_outcomes (f : LoginForm) (c : Component) (mode : string) :
  let kept := {| lf_username := lf_username f; lf_password := lf_password f;
                 lf_remember := lf_remember f; lf_msg := Some "Invalid credentials" |} in
  ((forall a, a ∈ users (hooks c) ->
      ~ (username a = trim (lf_username f) /\ password a = lf_password f)) ->
   submitLogin JSON_stringify f c = (Returned kept, c) /\
   (view mode c = LoginFormView ->
    LoginForm_after_submit JSON_stringify mode f c = Some kept)) /\
  (forall found,
     List.find (fun u => String.eqb (username u) (trim (lf_username f)) &&
                         String.eqb (password u) (lf_password f)) (users (hooks c)) =
       Some found ->
     let c' := snd (submitLogin JSON_stringify f c) in
     fst (submitLogin JSON_stringify f c) =
       Returned {| lf_username := ""; lf_password := ""; lf_remember := lf_remember f;
                   lf_msg := Some "Logged in" |} /\
     users (hooks c') = users (hooks c) /\
     user (hooks c') = publicUser found /\
     isAuthenticated (token (hooks c')) = true /\
     view mode c' = ProfileView /\
     LoginForm_after_submit JSON_stringify mode f c = None).
Proof.
  intros kept. subst kept.
  pose proof (act_Login JSON_stringify c (trim (lf_username f)) (lf_password f)
                (lf_remember f)) as Hact.
  split.
  - intros Hno.
    destruct (List.find _ _) as [found |] eqn:E.
    + apply find_Some_elem in E as [Hin Hm]. apply matches_spec in Hm.
      destruct (Hno found Hin Hm).
    + assert (Heq : submitLogin JSON_stringify f c =
                    (Returned {| lf_username := lf_username f; lf_password := lf_password f;
                                 lf_remember := lf_remember f;
                                 lf_msg := Some "Invalid credentials" |}, c))
        by (rewrite (submitLogin_act f c (failure "Invalid credentials")); by rewrite Hact).
      split; [exact Heq |]. intros Hv.
      unfold LoginForm_after_submit. rewrite Heq. cbn [fst snd]. by rewrite Hv.
  - intros found E. rewrite E in Hact. cbn zeta.
    unfold LoginForm_after_submit, view.
    rewrite (submitLogin_act f c ok) by (by rewrite Hact).
    cbn [fst snd success ok]. rewrite Hact. cbn [snd hooks users user token]. done.
Qed.

(** X15.  Through both forms.  After a registration through the form
    that succeeds, and a logout, the login form signs the same account
    in when its password field holds the same text and its username
    field holds a text that is the same after trimming, whatever white
    space surrounds either username and whatever the storage areas do. *)
Theorem forms_round_trip (f : RegisterForm) (g : LoginForm) (c : Component) :
  trim (rf_username f) <> "" ->
  rf_password f <> "" ->
  (forall a, a ∈ users (hooks c) -> username a <> trim (rf_username f)) ->
  trim (lf_username g) = trim (rf_username f) ->
  lf_password g = rf_password f ->
  let c1 := snd (submitRegister JSON_stringify f c) in
  let c2 := snd (act JSON_stringify Logout c1) in
  let c3 := snd (submitLogin JSON_stringify g c2) in
  fst (submitLogin JSON_stringify g c2) =
    Returned {| lf_username := ""; lf_password := ""; lf_remember := lf_remember g;
                lf_msg := Some "Logged in" |} /\
  user (hooks c3) =
    publicUser {| username := trim (rf_username f); password := rf_password f;
                  name := trim (rf_name f) |} /\
  isAuthenticated (token (hooks c3)) = true.
Proof.
  intros Hu Hp Hnew Hsame Hpw c1 c2 c3. subst c3 c2 c1.
  set (input := {| username := trim (rf_username f); password := rf_password f;
                   name := trim (rf_name f) |}).
  assert (Hne : forall s, s <> "" -> falsy s = false)
    by (intros s Hs; apply not_true_is_false; by rewrite falsy_spec).
  pose proof (act_Register JSON_stringify c input (rf_remember f)) as Hact.
  unfold input in Hact. cbn [username password] in Hact.
  rewrite (Hne _ Hu), (Hne _ Hp) in Hact. cbn [orb] in Hact.
  assert (existsb (fun u => String.eqb (username u) (trim (rf_username f)))
            (users (hooks c)) = false) as He.
  { apply not_true_is_false. rewrite existsb_username. intros (a & Ha & Heq).
    by apply (Hnew a Ha). }
  rewrite He in Hact. cbn zeta in Hact.
  rewrite (submitRegister_act f c ok) by (by rewrite Hact). cbn [snd].
  rewrite Hact. cbn [snd]. rewrite act_Logout. cbn [snd]. fold input.
  set (c2 := {| hooks := _; browser := _ |}).
  assert (Hfind : List.find (fun u => String.eqb (username u) (trim (lf_username g)) &&
                                      String.eqb (password u) (lf_password g))
                    (users (hooks c2)) = Some input).
  { cbn [c2 hooks users]. apply find_app_last.
    - intros x Hx. apply andb_false_iff. left. apply not_true_is_false.
      rewrite String.eqb_eq, Hsame. by apply Hnew.
    - rewrite Hsame, Hpw. cbn [input username password]. by rewrite !String.eqb_refl. }
  pose proof (act_Login JSON_stringify c2 (trim (lf_username g)) (lf_password g)
                (lf_remember g)) as HL.
  rewrite Hfind in HL.
  rewrite (submitLogin_act g c2 ok) by (by rewrite HL).
  cbn [fst snd success ok]. rewrite HL. cbn [snd hooks user token]. done.
Qed.

Lemma act_users a c :
  users (hooks (snd (act JSON_stringify a c))) = users (hooks c) \/
  exists input,
    users (hooks (snd (act JSON_stringify a c))) = (users (hooks c) ++ [input])%list /\
    forall acct, acct ∈ users (hooks c) -> username acct <> username input.
Proof.
  destruct a as [input remember | uname pword remember |].
  - rewrite act_Register.
    destruct (falsy (username input) || falsy (password input)); [by left |].
    destruct (existsb _ _) eqn:E; [by left |]. right. exists input. split; [done |].
    intros acct Hin Heq. apply not_true_iff_false in E. apply E, existsb_username.
    by exists acct.
  - left. rewrite act_Login. by destruct (List.find _ _).
  - left. by rewrite act_Logout.
Qed.

(** X16.  The users list.  Over any sequence of register, login and
    logout calls, the names listed before are still listed, in the same
    order and before any new one; and when they were distinct to begin
    with they stay distinct, so that the list items keep distinct
    keys. *)
Theorem listed_names_grow_and_stay_distinct (actions : list Action) (c : Component) :
  let before := userNames (users (hooks c)) in
  let after := userNames (users (hooks (perform JSON_stringify actions c))) in
  before `prefix_of` after /\
  (NoDup before -> NoDup after).
Proof.
  cbn zeta. revert c. induction actions as [| a actions IH]; intros c; cbn [perform].
  - done.
  - destruct (IH (snd (act JSON_stringify a c))) as [Hpre Hnd].
    destruct (act_users a c) as [Hsame | (input & Happ & Hnew)].
    + rewrite Hsame in Hpre, Hnd. done.
    + rewrite Happ in Hpre, Hnd. unfold userNames in *. rewrite fmap_app in Hpre, Hnd.
      split.
      * etrans; [| exact Hpre]. by apply prefix_app_r.
      * intros H. apply Hnd. apply NoDup_app. split_and!; [done | | apply NoDup_singleton].
        intros u Hu Hin. apply list_elem_of_singleton in Hin. subst u.
        apply list_elem_of_fmap in Hu as (acct & Heq & Hacct). by apply (Hnew acct).
Qed.

(** X17.  What [AuthDemo] shows.  After a successful register or login
    the token is t_ followed by the digits drawn, so the provider is
    authenticated and the profile is shown, whatever the storage areas
    do and whatever digits are drawn; a register or login that fails
    leaves the view as it was; and after logout the form selected by
    mode is shown, also when logout throws. *)
Theorem view_follows_session (c : Component) (a : Action) (mode : string) :
  let c' := snd (act JSON_stringify a c) in
  (fst (act JSON_stringify a c) = Returned (Some ok) ->
   token (hooks c') = Some ("t_" ++ rng (browser c) (draws (browser c))) /\
   isAuthenticated (token (hooks c')) = true /\
   view mode c' = ProfileView) /\
  (forall msg, fst (act JSON_stringify a c) = Returned (Some (failure msg)) ->
   view mode c' = view mode c) /\
  (a = Logout ->
   isAuthenticated (token (hooks c')) = false /\
   view mode c' = if String.eqb mode "login" then LoginFormView else RegisterFormView).
Proof.
  cbn zeta. split_and!.
  - intros Hok. pose proof (act_success_token JSON_stringify a c Hok) as Ht.
    unfold view. by rewrite Ht.
  - intros msg Hfail.
    destruct (act_outcome JSON_stringify a c) as [Hok | [Hsame | ->]].
    + rewrite Hok in Hfail. discriminate.
    + by rewrite Hsame.
    + rewrite act_Logout in Hfail. cbn [fst] in Hfail.
      destruct (fst (logout _)); discriminate.
  - intros ->. rewrite act_Logout. done.
Qed.


End Consumers.

(** ** Examples of the further properties *)

Lemma registry_mirrored_in_storage_witness :
  fault_free (blank never never) /\
  reachable stringify Json.parse (blank never never) Cases.signed_out /\
  stored LocalStorage LOCAL_USERS_KEY (browser Cases.signed_out) =
    Some (stringify (JArr (account_object <$> users (hooks Cases.signed_out)))).
Proof.
  assert (Hf : fault_free (blank never never)) by (by apply never_fault_free).
  assert (Hr : reachable stringify Json.parse (blank never never) Cases.signed_out).
  { eapply reach_step; [eapply reach_step; [apply reach_mount |] |]; [| apply step_act ..].
    vm_compute. reflexivity. }
  exact (conj Hf (conj Hr
           (registry_mirrored_in_storage stringify Json.parse _ _ Hf Hr))).
Defined.

Lemma registry_survives_reload_witness :
  reads_succeed (browser signed_in) /\
  Json.parse (stringify (JArr (account_object <$> users (hooks signed_in)))) =
    Some (JArr (account_object <$> users (hooks signed_in))) /\
  exists c', mount stringify Json.parse (close_tab (browser signed_in)) = Some c' /\
             users (hooks c') = users (hooks signed_in).
Proof.
  assert (Hr : reads_succeed (browser signed_in)) by (intros [] k m; reflexivity).
  assert (Hm : stored LocalStorage LOCAL_USERS_KEY (browser signed_in) =
               Some (stringify (JArr (account_object <$> users (hooks signed_in)))))
    by (vm_compute; reflexivity).
  assert (Hne : stringify (JArr (account_object <$> users (hooks signed_in))) <> "")
    by (intros H; vm_compute in H; discriminate H).
  assert (Hp : Json.parse (stringify (JArr (account_object <$> users (hooks signed_in)))) =
               Some (JArr (account_object <$> users (hooks signed_in))))
    by (vm_compute; reflexivity).
  exact (conj Hr (conj Hp
           (registry_survives_reload stringify Json.parse signed_in
              (close_tab (browser signed_in)) Hr Hm Hne Hp (or_intror eq_refl)))).
Defined.

Lemma remembered_session_survives_witness :
  fault_free (browser (opened never never)) /\
  mount stringify Json.parse (close_tab (browser signed_in)) = Some Cases.reopened /\
  token (hooks Cases.reopened) = token (hooks signed_in) /\
  user (hooks Cases.reopened) = user (hooks signed_in) /\
  isAuthenticated (token (hooks Cases.reopened)) = true.
Proof.
  assert (Hf : fault_free (browser (opened never never))) by (by apply never_fault_free).
  assert (Hok : fst (act stringify (Register alice true) (opened never never)) =
                Returned (Some ok)) by (vm_compute; reflexivity).
  assert (Hne : stringify (user (hooks signed_in)) <> "")
    by (intros H; vm_compute in H; discriminate H).
  assert (Hp : Json.parse (stringify (user (hooks signed_in))) = Some (user (hooks signed_in)))
    by (vm_compute; reflexivity).
  assert (Hm : mount stringify Json.parse (close_tab (browser signed_in)) =
               Some Cases.reopened) by (vm_compute; reflexivity).
  exact (conj Hf (conj Hm
           (remembered_session_survives stringify Json.parse (opened never never)
              (Register alice true) (close_tab (browser signed_in)) Cases.reopened
              Hf Hok eq_refl Hne Hp (or_intror eq_refl) Hm))).
Defined.

Lemma unremembered_session_is_per_tab_witness :
  fault_free (browser signed_in) /\
  mount stringify Json.parse (close_tab (browser Cases.tab_only)) =
    Some Cases.tab_only_reopened /\
  isAuthenticated (token (hooks Cases.tab_only)) = true /\
  token (hooks Cases.tab_only_reopened) = None /\
  user (hooks Cases.tab_only_reopened) = JNull /\
  isAuthenticated (token (hooks Cases.tab_only_reopened)) = false.
Proof.
  assert (Hf : fault_free (browser signed_in)) by (by apply never_fault_free).
  assert (Hok : fst (act stringify (Login "alice" "pw1" false) signed_in) =
                Returned (Some ok)) by (vm_compute; reflexivity).
  assert (Hm : mount stringify Json.parse (close_tab (browser Cases.tab_only)) =
               Some Cases.tab_only_reopened) by (vm_compute; reflexivity).
  assert (Ha : isAuthenticated (token (hooks Cases.tab_only)) = true)
    by (vm_compute; reflexivity).
  exact (conj Hf (conj Hm (conj Ha
           (proj2 (unremembered_session_is_per_tab stringify Json.parse signed_in
                     (Login "alice" "pw1" false) Cases.tab_only_reopened Hf Hok eq_refl)
              Hm)))).
Defined.

Lemma logged_out_stays_out_witness :
  removals_succeed (browser signed_in) /\
  reads_succeed (browser signed_in) /\
  isAuthenticated (token (hooks signed_in)) = true /\
  mount stringify Json.parse (browser Cases.signed_out) = Some Cases.signed_out_reloaded /\
  token (hooks Cases.signed_out_reloaded) = None /\
  user (hooks Cases.signed_out_reloaded) = JNull /\
  isAuthenticated (token (hooks Cases.signed_out_reloaded)) = false.
Proof.
  assert (Hx : removals_succeed (browser signed_in)) by (intros [] k m; reflexivity).
  assert (Hr : reads_succeed (browser signed_in)) by (intros [] k m; reflexivity).
  assert (Ha : isAuthenticated (token (hooks signed_in)) = true) by (vm_compute; reflexivity).
  assert (Hm : mount stringify Json.parse (browser Cases.signed_out) =
               Some Cases.signed_out_reloaded) by (vm_compute; reflexivity).
  exact (conj Hx (conj Hr (conj Ha (conj Hm
           (logged_out_stays_out stringify Json.parse signed_in (browser Cases.signed_out)
              Cases.signed_out_reloaded Hx Hr (or_introl eq_refl) Hm))))).
Defined.

Lemma failed_persist_restores_previous_session_witness :
  durable_full (browser Cases.crowded) /\
  fst (act stringify (Login "alice" "pw1" true) Cases.crowded) = Returned (Some ok) /\
  user (hooks (snd (act stringify (Login "alice" "pw1" true) Cases.crowded))) =
    publicUser alice /\
  token (hooks (snd (act stringify (Login "alice" "pw1" true) Cases.crowded))) =
    Some "t_x" /\
  holds_pair SessionStorage (stringify (publicUser bob)) "t_bob"
    (browser (snd (act stringify (Login "alice" "pw1" true) Cases.crowded))) /\
  token (hooks Cases.crowded_reloaded) = Some "t_bob".
Proof.
  assert (Hd : durable_full (browser Cases.crowded)).
  { split_and!; try (intros; reflexivity). intros call m. reflexivity. }
  assert (Hh : holds_pair SessionStorage (stringify (publicUser bob)) "t_bob"
                 (browser Cases.crowded)) by (split; vm_compute; reflexivity).
  assert (Hne : "t_bob" <> "") by discriminate.
  assert (Hl : truthy (stored LocalStorage AUTH_TOKEN_KEY (browser Cases.crowded)) = false)
    by (vm_compute; reflexivity).
  assert (Hok : fst (act stringify (Login "alice" "pw1" true) Cases.crowded) =
                Returned (Some ok)) by (vm_compute; reflexivity).
  assert (Hu : user (hooks (snd (act stringify (Login "alice" "pw1" true) Cases.crowded))) =
               publicUser alice) by (vm_compute; reflexivity).
  assert (Hm : mount stringify Json.parse
                 (browser (snd (act stringify (Login "alice" "pw1" true) Cases.crowded))) =
               Some Cases.crowded_reloaded) by (vm_compute; reflexivity).
  exact (conj Hd (conj Hok (conj Hu
           (failed_persist_restores_previous_session stringify Json.parse Cases.crowded
              "alice" "pw1" _ "t_bob" Cases.crowded_reloaded Hd Hh Hne Hl Hok Hm)))).
Defined.

Lemma token_without_user_witness :
  reads_succeed Cases.token_only /\
  mount stringify Json.parse Cases.token_only = Some Cases.token_only_mounted /\
  token (hooks Cases.token_only_mounted) = Some "t_left" /\
  isAuthenticated (token (hooks Cases.token_only_mounted)) = true /\
  user (hooks Cases.token_only_mounted) = JNull /\
  view "login" Cases.token_only_mounted = ProfileView /\
  greeting (user (hooks Cases.token_only_mounted)) = Some "No user".
Proof.
  assert (Hr : reads_succeed Cases.token_only) by (intros [] k m; reflexivity).
  assert (Ht : stored LocalStorage AUTH_TOKEN_KEY Cases.token_only = Some "t_left")
    by (vm_compute; reflexivity).
  assert (Hne : "t_left" <> "") by discriminate.
  assert (Hu : truthy (restored_text AUTH_USER_KEY Cases.token_only) = false)
    by (vm_compute; reflexivity).
  assert (Hm : mount stringify Json.parse Cases.token_only = Some Cases.token_only_mounted)
    by (vm_compute; reflexivity).
  exact (conj Hr (conj Hm
           (token_without_user stringify Json.parse Cases.token_only
              Cases.token_only_mounted "t_left" "login" Hr Ht Hne (or_introl Hu) Hm))).
Defined.

Lemma unreadable_registry_starts_empty_witness :
  reads_succeed Cases.garbled /\
  stored LocalStorage LOCAL_USERS_KEY Cases.garbled = Some "[{oops" /\
  Json.parse "[{oops" = None /\
  exists c,
    mount stringify Json.parse Cases.garbled = Some c /\
    users (hooks c) = [] /\
    ((forall v m, throws (localStorage Cases.garbled) (SetItem LOCAL_USERS_KEY v) m = false) ->
     stored LocalStorage LOCAL_USERS_KEY (browser c) = Some (stringify (JArr []))).
Proof.
  assert (Hr : reads_succeed Cases.garbled) by (intros [] k m; reflexivity).
  assert (Hs : stored LocalStorage LOCAL_USERS_KEY Cases.garbled = Some "[{oops")
    by (vm_compute; reflexivity).
  assert (Hp : Json.parse "[{oops" = None) by (vm_compute; reflexivity).
  assert (Hp' : Json.parse (default "" (stored LocalStorage LOCAL_USERS_KEY Cases.garbled)) =
                None) by (vm_compute; reflexivity).
  exact (conj Hr (conj Hs (conj Hp
           (unreadable_registry_starts_empty stringify Json.parse Cases.garbled
              (or_intror (conj Hr (or_intror Hp'))))))).
Defined.

Lemma forms_round_trip_witness :
  trim (rf_username Cases.typed) = "carol" /\
  trim (lf_username Cases.retyped) = "carol" /\
  fst (submitLogin stringify Cases.retyped
         (snd (act stringify Logout (snd (submitRegister stringify Cases.typed signed_in))))) =
    Returned {| lf_username := ""; lf_password := ""; lf_remember := true;
                lf_msg := Some "Logged in" |} /\
  user (hooks (snd (submitLogin stringify Cases.retyped
                      (snd (act stringify Logout
                              (snd (submitRegister stringify Cases.typed signed_in))))))) =
    publicUser {| username := "carol"; password := "pw3"; name := "" |}.
Proof.
  assert (H1 : trim (rf_username Cases.typed) = "carol") by reflexivity.
  assert (H2 : trim (lf_username Cases.retyped) = "carol") by reflexivity.
  assert (Hu : trim (rf_username Cases.typed) <> "") by (rewrite H1; discriminate).
  assert (Hp : rf_password Cases.typed <> "") by discriminate.
  assert (Hnew : forall a, a ∈ users (hooks signed_in) ->
                           username a <> trim (rf_username Cases.typed)).
  { intros a Ha. vm_compute in Ha. apply list_elem_of_singleton in Ha. subst a. discriminate. }
  destruct (forms_round_trip stringify Cases.typed Cases.retyped signed_in Hu Hp Hnew
              eq_refl eq_refl) as (Hf & Hv & _).
  exact (conj H1 (conj H2 (conj Hf Hv))).
Defined.

Lemma restore_reads_each_key_on_its_own_witness :
  reads_succeed Cases.mixed /\
  mount stringify Json.parse Cases.mixed = Some Cases.mixed_mounted /\
  stored SessionStorage AUTH_USER_KEY Cases.mixed = Some (stringify (publicUser bob)) /\
  user (hooks Cases.mixed_mounted) = publicUser alice /\
  token (hooks Cases.mixed_mounted) = Some "t_bob".
Proof.
  assert (Hr : reads_succeed Cases.mixed) by (intros [] k m; reflexivity).
  assert (Hu : stored LocalStorage AUTH_USER_KEY Cases.mixed =
               Some (stringify (publicUser alice))) by (vm_compute; reflexivity).
  assert (Hne : stringify (publicUser alice) <> "")
    by (intros H; vm_compute in H; discriminate H).
  assert (Hl : truthy (stored LocalStorage AUTH_TOKEN_KEY Cases.mixed) = false)
    by (vm_compute; reflexivity).
  assert (Hs : stored SessionStorage AUTH_TOKEN_KEY Cases.mixed = Some "t_bob")
    by (vm_compute; reflexivity).
  assert (Hb : stored SessionStorage AUTH_USER_KEY Cases.mixed =
               Some (stringify (publicUser bob))) by (vm_compute; reflexivity).
  assert (Hnt : "t_bob" <> "") by discriminate.
  assert (Hm : mount stringify Json.parse Cases.mixed = Some Cases.mixed_mounted)
    by (vm_compute; reflexivity).
  assert (Hp : Json.parse (stringify (publicUser alice)) = Some (publicUser alice))
    by (vm_compute; reflexivity).
  destruct (restore_reads_each_key_on_its_own stringify Json.parse Cases.mixed
              Cases.mixed_mounted _ "t_bob" Hr Hu Hne Hl Hs Hnt Hm) as (Ru & Rt & _).
  rewrite Hp in Ru. exact (conj Hr (conj Hm (conj Hb (conj Ru Rt)))).
Defined.

Lemma persistAuth_is_confined_witness :
  first_failure (persistAuth_calls (stringify (publicUser alice)) "t_x" true)
    Cases.tab_denied = Some (SessionStorage, RemoveItem AUTH_USER_KEY) /\
  calls_made (persistAuth_calls (stringify (publicUser alice)) "t_x" true)
    Cases.tab_denied =
    [(LocalStorage, SetItem AUTH_USER_KEY (stringify (publicUser alice)));
     (LocalStorage, SetItem AUTH_TOKEN_KEY "t_x");
     (SessionStorage, RemoveItem AUTH_USER_KEY)] /\
  fst (persistAuth stringify (publicUser alice) "t_x" true Cases.tab_denied) = Returned tt /\
  console (world (snd (persistAuth stringify (publicUser alice) "t_x" true
                         Cases.tab_denied))) =
    [("persistAuth error", DOMException SessionStorage (RemoveItem AUTH_USER_KEY))].
Proof.
  assert (Hff : first_failure (persistAuth_calls (stringify (publicUser alice)) "t_x" true)
                  Cases.tab_denied = Some (SessionStorage, RemoveItem AUTH_USER_KEY))
    by (vm_compute; reflexivity).
  assert (Hcm : calls_made (persistAuth_calls (stringify (publicUser alice)) "t_x" true)
                  Cases.tab_denied =
                [(LocalStorage, SetItem AUTH_USER_KEY (stringify (publicUser alice)));
                 (LocalStorage, SetItem AUTH_TOKEN_KEY "t_x");
                 (SessionStorage, RemoveItem AUTH_USER_KEY)])
    by (vm_compute; reflexivity).
  destruct (persistAuth_is_confined stringify (publicUser alice) "t_x" true Cases.tab_denied)
    as (Hr & _ & _ & _ & _ & Hc & _).
  rewrite Hff in Hc.
  exact (conj Hff (conj Hcm (conj Hr Hc))).
Defined.

Lemma register_form_outcomes_witness :
  view "register" (opened never never) = RegisterFormView /\
  RegisterForm_after_submit stringify "register" Cases.unfinished (opened never never) =
    Some {| rf_username := "dave"; rf_password := ""; rf_name := "Dave";
            rf_remember := true; rf_msg := Some "Provide username and password" |} /\
  users (hooks (snd (submitRegister stringify Cases.typed (opened never never)))) =
    [{| username := "carol"; password := "pw3"; name := "" |}] /\
  view "register" (snd (submitRegister stringify Cases.typed (opened never never))) =
    ProfileView /\
  RegisterForm_after_submit stringify "register" Cases.typed (opened never never) = None.
Proof.
  assert (Hv : view "register" (opened never never) = RegisterFormView) by reflexivity.
  assert (Hu : trim (rf_username Cases.typed) <> "") by discriminate.
  assert (Hp : rf_password Cases.typed <> "") by discriminate.
  assert (Hnew : forall a, a ∈ users (hooks (opened never never)) ->
                           username a <> trim (rf_username Cases.typed)).
  { intros a Ha. vm_compute in Ha. by apply elem_of_nil in Ha. }
  destruct (register_form_outcomes stringify Cases.typed (opened never never) "register")
    as (_ & _ & Hok).
  destruct (Hok Hu Hp Hnew) as (_ & Hus & _ & _ & Hview & Hgone).
  destruct (register_form_outcomes stringify Cases.unfinished (opened never never)
              "register") as (Hempty & _).
  destruct (Hempty (or_intror eq_refl)) as (_ & Hkept).
  exact (conj Hv (conj (Hkept Hv) (conj Hus (conj Hview Hgone)))).
Defined.

Lemma login_form_outcomes_witness :
  view "login" Cases.signed_out = LoginFormView /\
  LoginForm_after_submit stringify "login" Cases.retyped Cases.signed_out =
    Some {| lf_username := "carol   "; lf_password := "pw3"; lf_remember := true;
            lf_msg := Some "Invalid credentials" |} /\
  user (hooks (snd (submitLogin stringify Cases.returning Cases.signed_out))) =
    publicUser alice /\
  view "login" (snd (submitLogin stringify Cases.returning Cases.signed_out)) =
    ProfileView /\
  LoginForm_after_submit stringify "login" Cases.returning Cases.signed_out = None.
Proof.
  assert (Hv : view "login" Cases.signed_out = LoginFormView) by reflexivity.
  assert (Hno : forall a, a ∈ users (hooks Cases.signed_out) ->
                   ~ (username a = trim (lf_username Cases.retyped) /\
                      password a = lf_password Cases.retyped)).
  { intros a Ha [Hn _]. vm_compute in Ha. apply list_elem_of_singleton in Ha. subst a.
    discriminate Hn. }
  assert (Hfind : List.find
                    (fun u => String.eqb (username u) (trim (lf_username Cases.returning)) &&
                              String.eqb (password u) (lf_password Cases.returning))
                    (users (hooks Cases.signed_out)) = Some alice)
    by (vm_compute; reflexivity).
  destruct (login_form_outcomes stringify Cases.retyped Cases.signed_out "login")
    as (Hfail & _).
  destruct (Hfail Hno) as (_ & Hkept).
  destruct (login_form_outcomes stringify Cases.returning Cases.signed_out "login")
    as (_ & Hok).
  destruct (Hok alice Hfind) as (_ & _ & Hus & _ & Hview & Hgone).
  exact (conj Hv (conj (Hkept Hv) (conj Hus (conj Hview Hgone)))).
Defined.
